(** * Facilitator dashboard: a shallow embedding of the view-model logic

    Source: client/src/Features/Facilitator/FacilitatorDashboard_Enhanced.jsx

    The component keeps its data in React state (cases, doctors, selectedCase,
    updatingCaseId) and derives everything else from it.  The embedding below
    follows the JavaScript line by line:

    - [JS] models the JavaScript values the component handles (the JSON data
      sent by the backend) and the handful of language operations the source
      applies to them: truthiness, [typeof], property reads, [===] against a
      primitive, [String(...)], [toLowerCase], [replace(/\s+/g, "")], object
      spread and [Object.values].  A property read on [null] or [undefined]
      throws, so reads live in an error monad.
    - [Dashboard] holds the component's own functions, under their source
      names.
    - [Spec] holds the notions the properties are stated with, [Sample]
      some concrete data, and [Props] the properties and their proofs. *)

From Stdlib Require Import String Ascii List ZArith NArith Arith Lia Bool.
From Stdlib Require Import Permutation Sorting.Sorted DecimalString.
Import ListNotations.

Local Open Scope string_scope.

(* ===================================================================== *)
(** ** JavaScript values *)
(* ===================================================================== *)

Module JS.

(** Primitive values.  Numbers are the integers (identifiers, timestamps);
    strings are sequences of code units below 256, which is the range on
    which [lower_unit] and [is_space] below are exact. *)
Inductive prim : Type :=
| PUndef
| PNull
| PBool (b : bool)
| PNum (z : Z)
| PStr (s : string).

#[local] Set Warnings "-register-all".

(** Values.  The property list of an object holds its own enumerable
    properties in the order [Object.values] visits them; a list represents
    an object when its keys are pairwise distinct. *)
Inductive value : Type :=
| VPrim (p : prim)
| VArr (elems : list value)
| VObj (props : list (string * value)).

Coercion VPrim : prim >-> value.

Definition props : Type := list (string * value).

Definition undefined : value := VPrim PUndef.
Definition null : value := VPrim PNull.
Definition VStr (s : string) : value := VPrim (PStr s).
Definition VNum (z : Z) : value := VPrim (PNum z).

(** *** Errors *)

Inductive error : Type := TypeError.

Inductive result (A : Type) : Type :=
| Ok (a : A)
| Throw (e : error).

Arguments Ok {A} a.
Arguments Throw {A} e.

Definition bind {A B : Type} (r : result A) (k : A -> result B) : result B :=
  match r with
  | Ok a => k a
  | Throw e => Throw e
  end.

Notation "x <- r ;; k" := (bind r (fun x => k))
  (at level 61, r at next level, right associativity).

(** [forEach] / [map] with a callback that may throw: the first exception
    aborts the traversal. *)
Fixpoint mapM {A B : Type} (f : A -> result B) (l : list A) : result (list B) :=
  match l with
  | [] => Ok []
  | x :: xs => y <- f x ;; ys <- mapM f xs ;; Ok (y :: ys)
  end.

Fixpoint foldM {A S : Type} (f : S -> A -> result S) (l : list A) (s : S)
  : result S :=
  match l with
  | [] => Ok s
  | x :: xs => s' <- f s x ;; foldM f xs s'
  end.

(** *** Truthiness and [typeof] *)

Definition truthy_prim (p : prim) : bool :=
  match p with
  | PUndef | PNull => false
  | PBool b => b
  | PNum z => negb (Z.eqb z 0)
  | PStr s => negb (String.eqb s "")
  end.

Definition truthy (v : value) : bool :=
  match v with
  | VPrim p => truthy_prim p
  | VArr _ | VObj _ => true
  end.

Inductive jstype : Type :=
| TUndefined | TObject | TBoolean | TNumber | TString.

(** [typeof null] is ["object"], and so is [typeof] of an array. *)
Definition typeof (v : value) : jstype :=
  match v with
  | VPrim PUndef => TUndefined
  | VPrim PNull => TObject
  | VPrim (PBool _) => TBoolean
  | VPrim (PNum _) => TNumber
  | VPrim (PStr _) => TString
  | VArr _ | VObj _ => TObject
  end.

Definition jstype_eqb (a b : jstype) : bool :=
  match a, b with
  | TUndefined, TUndefined | TObject, TObject | TBoolean, TBoolean
  | TNumber, TNumber | TString, TString => true
  | _, _ => false
  end.

(** [a || b] and [a ?? b] on values. *)
Definition or_else (a b : value) : value := if truthy a then a else b.

Definition nullish (v : value) : bool :=
  match v with
  | VPrim PUndef | VPrim PNull => true
  | _ => false
  end.

Definition coalesce (a b : value) : value := if nullish a then b else a.

(** *** Property reads *)

Fixpoint lookup (k : string) (ps : props) : option value :=
  match ps with
  | [] => None
  | (k', v) :: rest => if String.eqb k' k then Some v else lookup k rest
  end.

(** [v.k] / [v[k]] for the property names the component reads from backend
    data ([_id], [id], [status], [createdAt], [case], [data], [result],
    [payload]): none of them exists on a built-in prototype, so the read is
    an own-property lookup on an object, [undefined] on an array or on a
    non-nullish primitive, and a [TypeError] on [null] and [undefined]. *)
Definition getProp (v : value) (k : string) : result value :=
  match v with
  | VPrim PUndef | VPrim PNull => Throw TypeError
  | VPrim _ | VArr _ => Ok undefined
  | VObj ps =>
      match lookup k ps with
      | Some x => Ok x
      | None => Ok undefined
      end
  end.

(** [v === p] for a primitive [p]: never true of an array or an object. *)
Definition prim_eqb (p q : prim) : bool :=
  match p, q with
  | PUndef, PUndef => true
  | PNull, PNull => true
  | PBool a, PBool b => Bool.eqb a b
  | PNum a, PNum b => Z.eqb a b
  | PStr a, PStr b => String.eqb a b
  | _, _ => false
  end.

Definition strictEq (v : value) (p : prim) : bool :=
  match v with
  | VPrim q => prim_eqb q p
  | VArr _ | VObj _ => false
  end.

(** *** Strings *)

(** [String.prototype.toLowerCase], one code unit at a time: A-Z and the
    Latin-1 capitals U+00C0..U+00DE (U+00D7, the multiplication sign, is
    not a letter) move up by 32. *)
Definition lower_unit (c : ascii) : ascii :=
  let n := N_of_ascii c in
  if ((65 <=? n) && (n <=? 90)
      || (192 <=? n) && (n <=? 222) && negb (n =? 215))%N
  then ascii_of_N (n + 32) else c.

Fixpoint toLowerCase (s : string) : string :=
  match s with
  | EmptyString => EmptyString
  | String c rest => String (lower_unit c) (toLowerCase rest)
  end.

(** The class [\s] below U+0100: TAB, LF, VT, FF, CR, SPACE and NBSP. *)
Definition is_space (c : ascii) : bool :=
  let n := N_of_ascii c in
  ((9 <=? n) && (n <=? 13) || (n =? 32) || (n =? 160))%N.

(** [s.replace(/\s+/g, "")]: every maximal run of white space is replaced
    by the empty string, which deletes every white-space code unit. *)
Fixpoint removeSpaces (s : string) : string :=
  match s with
  | EmptyString => EmptyString
  | String c rest =>
      if is_space c then removeSpaces rest else String c (removeSpaces rest)
  end.

(** [v.toLowerCase()]: only a string has the method. *)
Definition callToLowerCase (v : value) : result string :=
  match v with
  | VPrim (PStr s) => Ok (toLowerCase s)
  | _ => Throw TypeError
  end.

Definition string_of_Z (z : Z) : string :=
  NilZero.string_of_int (Z.to_int z).

Fixpoint join (sep : string) (l : list string) : string :=
  match l with
  | [] => ""
  | [x] => x
  | x :: rest => x ++ sep ++ join sep rest
  end.

(** [String(v)].  An array is joined with commas, [null] and [undefined]
    elements printing as the empty string; a plain object prints as
    ["[object Object]"]. *)
Fixpoint toString (v : value) : string :=
  match v with
  | VPrim PUndef => "undefined"
  | VPrim PNull => "null"
  | VPrim (PBool true) => "true"
  | VPrim (PBool false) => "false"
  | VPrim (PNum z) => string_of_Z z
  | VPrim (PStr s) => s
  | VArr l =>
      join "," (map (fun x => if nullish x then "" else toString x) l)
  | VObj _ => "[object Object]"
  end.

(** *** Objects *)

(** [o[k] = v] on a property list: an existing key keeps its place. *)
Fixpoint setProp (k : string) (v : value) (ps : props) : props :=
  match ps with
  | [] => [(k, v)]
  | (k', v') :: rest =>
      if String.eqb k' k then (k', v) :: rest
      else (k', v') :: setProp k v rest
  end.

Fixpoint chars (s : string) : list string :=
  match s with
  | EmptyString => []
  | String c rest => String c EmptyString :: chars rest
  end.

Definition indexed (l : list value) : props :=
  map (fun iv => (string_of_Z (Z.of_nat (fst iv)), snd iv))
      (combine (seq 0 (length l)) l).

(** The own enumerable properties copied by a spread [...v]: those of an
    object, the indexed elements of an array or of a string, none for any
    other primitive. *)
Definition ownProps (v : value) : props :=
  match v with
  | VObj ps => ps
  | VArr l => indexed l
  | VPrim (PStr s) => indexed (map VStr (chars s))
  | VPrim _ => []
  end.

(** [{ ...a, ...b }] continued on a property list: each property of [b]
    is assigned in turn. *)
Definition assign (ps : props) (qs : props) : props :=
  fold_left (fun acc kv => setProp (fst kv) (snd kv) acc) qs ps.

(** [Object.values(v)] for a non-nullish [v]. *)
Definition objectValues (v : value) : list value :=
  map snd (ownProps v).

End JS.

(* ===================================================================== *)
(** ** The dashboard component *)
(* ===================================================================== *)

Module Dashboard.
Import JS.

(** const STATUSES = ["Pending", "Assigned", "In Progress", "Follow Up", "Closed"] *)
Definition STATUSES : list string :=
  ["Pending"; "Assigned"; "In Progress"; "Follow Up"; "Closed"].

(** *** Case statistics ([stats]) *)

(** The object literal [count]: eight own numeric properties. *)
Record Count : Type := mkCount {
  total : nat;
  pending : nat;
  assigned : nat;
  inprogress : nat;
  followup : nat;
  closed : nat;
  rejected : nat;
  unknown : nat
}.

Definition count0 : Count := mkCount 0 0 0 0 0 0 0 0.

Inductive field : Type :=
| Total | Pending | Assigned | InProgress | FollowUp | Closed | Rejected
| Unknown.

(** [count.f++] *)
Definition incr (f : field) (c : Count) : Count :=
  match f with
  | Total =>
      mkCount (S (total c)) (pending c) (assigned c) (inprogress c)
              (followup c) (closed c) (rejected c) (unknown c)
  | Pending =>
      mkCount (total c) (S (pending c)) (assigned c) (inprogress c)
              (followup c) (closed c) (rejected c) (unknown c)
  | Assigned =>
      mkCount (total c) (pending c) (S (assigned c)) (inprogress c)
              (followup c) (closed c) (rejected c) (unknown c)
  | InProgress =>
      mkCount (total c) (pending c) (assigned c) (S (inprogress c))
              (followup c) (closed c) (rejected c) (unknown c)
  | FollowUp =>
      mkCount (total c) (pending c) (assigned c) (inprogress c)
              (S (followup c)) (closed c) (rejected c) (unknown c)
  | Closed =>
      mkCount (total c) (pending c) (assigned c) (inprogress c)
              (followup c) (S (closed c)) (rejected c) (unknown c)
  | Rejected =>
      mkCount (total c) (pending c) (assigned c) (inprogress c)
              (followup c) (closed c) (S (rejected c)) (unknown c)
  | Unknown =>
      mkCount (total c) (pending c) (assigned c) (inprogress c)
              (followup c) (closed c) (rejected c) (S (unknown c))
  end.

(** What [count[key]] evaluates to.  [count] is an ordinary object, so a key
    that is not an own property is looked up on [Object.prototype]; of the
    names found there only [constructor] and [__proto__] have no capital
    letter and can come out of [toLowerCase].  Both hold an object, not
    [undefined]. *)
Inductive slot : Type :=
| Counter (f : field)
| Inherited
| Missing.

Definition count_slot (key : string) : slot :=
  if String.eqb key "total" then Counter Total
  else if String.eqb key "pending" then Counter Pending
  else if String.eqb key "assigned" then Counter Assigned
  else if String.eqb key "inprogress" then Counter InProgress
  else if String.eqb key "followup" then Counter FollowUp
  else if String.eqb key "closed" then Counter Closed
  else if String.eqb key "rejected" then Counter Rejected
  else if String.eqb key "unknown" then Counter Unknown
  else if String.eqb key "constructor" then Inherited
  else if String.eqb key "__proto__" then Inherited
  else Missing.

(** const key = (c.status || "unknown").toLowerCase().replace(/\s+/g, "") *)
Definition status_key (c : value) : result string :=
  st <- getProp c "status" ;;
  s <- callToLowerCase (or_else st (VStr "unknown")) ;;
  Ok (removeSpaces s).

(** if (count[key] !== undefined) count[key]++; else count.unknown++;

    On [Inherited] the increment computes [NaN] from an object: assigned to
    [constructor] it creates an own property of that name (which still is
    not [undefined] afterwards), assigned to [__proto__] it is dropped by
    the setter.  Neither touches one of the eight counters. *)
Definition bump (key : string) (count : Count) : Count :=
  match count_slot key with
  | Counter f => incr f count
  | Inherited => count
  | Missing => incr Unknown count
  end.

(** The body of [cases.forEach((c) => { ... })]. *)
Definition stats_step (count : Count) (c : value) : result Count :=
  let count := incr Total count in
  key <- status_key c ;;
  Ok (bump key count).

Definition stats (cases : list value) : result Count :=
  foldM stats_step cases count0.

(** The six status buckets named by the snapshot, and the bucket a
    normalized key belongs to when it is one of them. *)
Definition known_bucket (key : string) : option field :=
  if String.eqb key "pending" then Some Pending
  else if String.eqb key "assigned" then Some Assigned
  else if String.eqb key "inprogress" then Some InProgress
  else if String.eqb key "followup" then Some FollowUp
  else if String.eqb key "closed" then Some Closed
  else if String.eqb key "rejected" then Some Rejected
  else None.

(** Sum of the seven status buckets of a snapshot. *)
Definition bucket_sum (c : Count) : nat :=
  pending c + assigned c + inprogress c + followup c + closed c
  + rejected c + unknown c.

(** *** Status tab derived from the URL ([useEffect] on [searchParams]) *)

(** [searchParams.get("status")] is a string or [null] ([None]); the value
    returned is the argument of [setTab].
<<
    if (!statusParam) return setTab("All");
    const matched = STATUSES.find(
      (s) => s.toLowerCase() === statusParam.toLowerCase());
    setTab(matched || "All");
>> *)
Definition statusTab (statusParam : option string) : string :=
  match statusParam with
  | None => "All"
  | Some p =>
      if String.eqb p "" then "All"
      else
        match
          find (fun s => String.eqb (toLowerCase s) (toLowerCase p)) STATUSES
        with
        | Some matched => if String.eqb matched "" then "All" else matched
        | None => "All"
        end
  end.

(** *** Recent cases ([recentCases]) *)

(** [Array.prototype.sort(comparefn)].  The comparator returns a number,
    [None] standing for [NaN], which [sort] reads as 0.  The standard
    requires the sort to be stable and, for a comparator that is a
    consistent ordering, determines its result; this insertion sort computes
    that result.  [undefined] elements are moved to the end without being
    passed to the comparator. *)
Section Sort.
Variable A : Type.
Variable comparefn : A -> A -> result (option Z).

Definition goes_after (d : option Z) : bool :=
  match d with
  | Some z => (0 <? z)%Z
  | None => false
  end.

Fixpoint insertM (x : A) (l : list A) : result (list A) :=
  match l with
  | [] => Ok [x]
  | y :: ys =>
      d <- comparefn x y ;;
      if goes_after d then r <- insertM x ys ;; Ok (y :: r)
      else Ok (x :: y :: ys)
  end.

Fixpoint sortM (l : list A) : result (list A) :=
  match l with
  | [] => Ok []
  | x :: xs => r <- sortM xs ;; insertM x r
  end.
End Sort.

Arguments insertM {A} comparefn x l.
Arguments sortM {A} comparefn l.

Definition is_undefined (v : value) : bool :=
  match v with
  | VPrim PUndef => true
  | _ => false
  end.

Definition arraySort (comparefn : value -> value -> result (option Z))
  (l : list value) : result (list value) :=
  r <- sortM comparefn (filter (fun v => negb (is_undefined v)) l) ;;
  Ok (r ++ filter is_undefined l)%list.

Section Recent.
(** [Date.parse] on a string: its time value in milliseconds, [None] for
    an invalid date. *)
Variable parseDate : string -> option Z.

(** The time value of [new Date(v)]: [NaN] for [undefined], the number
    itself (within the range of a Date) for a number, [null] and booleans
    through [ToNumber], anything else through its string form. *)
Definition dateValue (v : value) : option Z :=
  match v with
  | VPrim PUndef => None
  | VPrim PNull => Some 0%Z
  | VPrim (PBool b) => Some (if b then 1 else 0)%Z
  | VPrim (PNum z) =>
      if (Z.abs z <=? 8640000000000000)%Z then Some z else None
  | VPrim (PStr s) => parseDate s
  | VArr _ | VObj _ => parseDate (toString v)
  end.

Definition createdTime (c : value) : result (option Z) :=
  v <- getProp c "createdAt" ;; Ok (dateValue v).

(** (a, b) => new Date(b.createdAt) - new Date(a.createdAt) *)
Definition byCreatedDesc (a b : value) : result (option Z) :=
  tb <- createdTime b ;;
  ta <- createdTime a ;;
  Ok (match tb, ta with
      | Some y, Some x => Some (y - x)%Z
      | _, _ => None
      end).

(** [...cases].sort(...).slice(0, 6) *)
Definition recentCases (cases : list value) : result (list value) :=
  sorted <- arraySort byCreatedDesc cases ;;
  Ok (firstn 6 sorted).
End Recent.

(** *** Extracting the updated case from a response ([extractUpdatedCase]) *)

(** [v._id || v.id] *)
Definition idOf (v : value) : result value :=
  a <- getProp v "_id" ;;
  if truthy a then Ok a else getProp v "id".

Definition hasId (v : value) : result bool :=
  i <- idOf v ;; Ok (truthy i).

Definition wrapperKeys : list string := ["case"; "data"; "result"; "payload"].

(** for (const key of [...]) if (data[key] && (data[key]._id || data[key].id)) return data[key]; *)
Fixpoint probe (data : value) (keys : list string) : result (option value) :=
  match keys with
  | [] => Ok None
  | key :: rest =>
      v <- getProp data key ;;
      hit <- (if truthy v then hasId v else Ok false) ;;
      if hit then Ok (Some v) else probe data rest
  end.

(** [Array.prototype.find] with a callback that may throw; [None] is
    [undefined]. *)
Fixpoint findM {A : Type} (f : A -> result bool) (l : list A)
  : result (option A) :=
  match l with
  | [] => Ok None
  | x :: xs => b <- f x ;; if b then Ok (Some x) else findM f xs
  end.

Definition found_or_undefined (o : option value) : value :=
  match o with
  | Some v => v
  | None => undefined
  end.

(** (v) => v && typeof v === "object" && (v._id || v.id) *)
Definition nestedCandidate (v : value) : result bool :=
  if truthy v && jstype_eqb (typeof v) TObject then hasId v else Ok false.

Definition extractUpdatedCase (data : value) : result value :=
  if negb (truthy data) then Ok null
  else
    direct <- hasId data ;;
    if direct then Ok data
    else
      wrapped <- probe data wrapperKeys ;;
      match wrapped with
      | Some v => Ok v
      | None =>
          nested <- findM nestedCandidate (objectValues data) ;;
          Ok (or_else (found_or_undefined nested) null)
      end.

(** *** Doctor lookup ([getAssignedDoctor]) *)

Definition placeholderDoctor : value :=
  VObj [("name", VStr "Doctor"); ("specialization", VStr "")].

(** (d) => d._id === assignedDoctorId || d.id === assignedDoctorId *)
Definition doctorMatches (ref : string) (d : value) : result bool :=
  a <- getProp d "_id" ;;
  if strictEq a (PStr ref) then Ok true
  else b <- getProp d "id" ;; Ok (strictEq b (PStr ref)).

Definition getAssignedDoctor (doctors : list value) (assignedDoctorId : value)
  : result value :=
  if negb (truthy assignedDoctorId) then Ok null
  else
    match assignedDoctorId with
    | VPrim (PStr ref) =>
        d <- findM (doctorMatches ref) doctors ;;
        Ok (or_else (found_or_undefined d) placeholderDoctor)
    | _ => Ok assignedDoctorId
    end.

(** *** Updating a case status ([handleUpdateStatus]) *)

(** What the operator or the console is told. *)
Inductive notice : Type :=
| ConsoleError
| ConsoleWarn
| Alert.

(** The React state the handler reads and writes, and the notices issued
    so far. *)
Record State : Type := mkState {
  cases : list value;
  selectedCase : value;
  updatingCaseId : prim;
  notices : list notice
}.

Definition setUpdatingCaseId (id : prim) (s : State) : State :=
  mkState (cases s) (selectedCase s) id (notices s).

(** [setCases((prev) => f(prev))].  State updates are applied in program
    order.  An exception raised by the updater [f] is raised by React and
    not inside the handler's [try]. *)
Definition setCases (f : list value -> result (list value)) (s : State)
  : result State :=
  cs <- f (cases s) ;;
  Ok (mkState cs (selectedCase s) (updatingCaseId s) (notices s)).

Definition setSelectedCase (f : value -> value) (s : State) : State :=
  mkState (cases s) (f (selectedCase s)) (updatingCaseId s) (notices s).

Definition notify (n : notice) (s : State) : State :=
  mkState (cases s) (selectedCase s) (updatingCaseId s) (notices s ++ [n])%list.

(** The calls made to the remote service: [api.put(`/queries/${id}`,
    { status })] and [api.get("/queries")]. *)
Inductive request : Type :=
| PutStatus (id : prim) (status : value)
| GetQueries.

(** An asynchronous function, cut at its [await]s.  [Await s r k] has issued
    the request [r] with the state being [s]; it resumes as [k s' o] when
    the call settles, [s'] being the state at that time and [o] the body
    ([.data]) of the response, or [None] when the call failed.  [Crash] is
    an exception that no handler of the function catches. *)
Inductive proc : Type :=
| Done (s : State)
| Crash (e : error)
| Await (s : State) (r : request) (k : State -> option value -> proc).

(** [try { ... } finally { f }] around the rest of the function. *)
Fixpoint andFinally (f : State -> State) (p : proc) : proc :=
  match p with
  | Done s => Done (f s)
  | Crash e => Crash e
  | Await s r k => Await s r (fun s' o => andFinally f (k s' o))
  end.

(** The properties copied by a spread [...v] into a fresh literal (keys of
    an object being pairwise distinct, the copy is the list itself). *)
Definition spread (v : value) : props := ownProps v.

(** (c) => (c._id === caseId ? { ...c, status: newStatus } : c) *)
Definition optimistic (caseId : prim) (newStatus : value) (c : value)
  : result value :=
  id <- getProp c "_id" ;;
  Ok (if strictEq id caseId
      then VObj (setProp "status" newStatus (spread c))
      else c).

(** (c) => String(c._id) === String(id) ? { ...c, ...updated } : c *)
Definition mergeUpdated (id updated : value) (c : value) : result value :=
  cid <- getProp c "_id" ;;
  Ok (if String.eqb (toString cid) (toString id)
      then VObj (assign (spread c) (spread updated))
      else c).

(** The body of the [try] once the PUT has resolved with body [data].
    [selected] is the [selectedCase] captured by the callback.  [Throw] is
    an exception raised inside the [try]. *)
Definition reconcile (selected : value) (data : value) (s : State)
  : result proc :=
  found <- extractUpdatedCase data ;;
  let updated := coalesce found data in
  usable <- (if truthy updated then hasId updated else Ok false) ;;
  if usable then
    id <- idOf updated ;;
    match setCases (mapM (mergeUpdated id updated)) s with
    | Throw e => Ok (Crash e)
    | Ok s1 =>
        open <- (if truthy selected
                 then sid <- getProp selected "_id" ;;
                      Ok (String.eqb (toString sid) (toString id))
                 else Ok false) ;;
        Ok (Done
              (if open
               then setSelectedCase
                      (fun prev => VObj (assign (spread prev) (spread updated)))
                      s1
               else s1))
    end
  else Ok (Done (notify ConsoleWarn s)).

(** The [catch] block: log, re-fetch all cases, alert. *)
Definition recover (s : State) : proc :=
  Await (notify ConsoleError s) GetQueries
    (fun s' refetch =>
       let s'' :=
         match refetch with
         | Some data =>
             mkState (match data with VArr l => l | _ => [] end)
                     (selectedCase s') (updatingCaseId s') (notices s')
         | None => notify ConsoleError s'
         end in
       Done (notify Alert s'')).

Definition handleUpdateStatus (caseId : prim) (newStatus : value) (s : State)
  : proc :=
  if negb (truthy_prim caseId) then Done s
  else
    let selected := selectedCase s in
    let s := setUpdatingCaseId caseId s in
    match setCases (mapM (optimistic caseId newStatus)) s with
    | Throw e => Crash e
    | Ok s =>
        Await s (PutStatus caseId newStatus)
          (fun s' res =>
             andFinally (setUpdatingCaseId PNull)
               match res with
               | Some data =>
                   match reconcile selected data s' with
                   | Ok p => p
                   | Throw _ => recover s'
                   end
               | None => recover s'
               end)
    end.

(** Running a handler against the outcomes of its remote calls, in the
    order in which it issues them, nothing else touching the state
    meanwhile. *)
Inductive outcome : Type :=
| Finished (s : State)
| Crashed (e : error)
| Waiting (s : State) (r : request).

Fixpoint run (p : proc) (settled : list (option value)) : outcome :=
  match p with
  | Done s => Finished s
  | Crash e => Crashed e
  | Await s r k =>
      match settled with
      | [] => Waiting s r
      | o :: rest => run (k s o) rest
      end
  end.

(** The remote calls issued along a run, oldest first, each with the state
    at the time of the call. *)
Fixpoint calls (p : proc) (settled : list (option value))
  : list (State * request) :=
  match p with
  | Done _ | Crash _ => []
  | Await s r k =>
      (s, r) ::
      match settled with
      | [] => []
      | o :: rest => calls (k s o) rest
      end
  end.

End Dashboard.

(* ===================================================================== *)
(** ** The extraction strategy as the specification words it *)
(* ===================================================================== *)

Module Spec.
Import JS.

(** A value carries an identifier field when it is an object whose [_id] or
    [id] holds a (truthy) identifier. *)
Definition carriesIdentifier (v : value) : bool :=
  match v with
  | VObj ps =>
      match lookup "_id" ps with
      | Some i => truthy i
      | None => false
      end
      || match lookup "id" ps with
         | Some i => truthy i
         | None => false
         end
  | _ => false
  end.

(** The value under a key of the body, [undefined] when there is none. *)
Definition under (body : value) (key : string) : value :=
  match body with
  | VObj ps =>
      match lookup key ps with
      | Some x => x
      | None => undefined
      end
  | _ => undefined
  end.

Definition objectShaped (v : value) : bool :=
  match v with
  | VArr _ | VObj _ => true
  | VPrim _ => false
  end.

(** Accept the body if it carries an identifier; otherwise probe the wrapper
    keys "case", "data", "result", "payload", in that order; otherwise scan
    the body's own values for the first object-shaped one carrying an
    identifier; otherwise no result. *)
Definition extraction (body : value) : option value :=
  if carriesIdentifier body then Some body
  else
    match
      find (fun key => carriesIdentifier (under body key))
           ["case"; "data"; "result"; "payload"]
    with
    | Some key => Some (under body key)
    | None =>
        find (fun v => objectShaped v && carriesIdentifier v)
             (objectValues body)
    end.

(** How a record [c'] of the rewritten collection relates to the record [c]
    it comes from: untouched when the [_id] of [c] differs from the
    identifier; otherwise an object whose [status] is the new status, whose
    other properties have the values they have in [c], and whose properties
    other than [status] are those of [c] in the same order. *)
Definition statusPatched (caseId : prim) (newStatus : value) (c c' : value)
  : Prop :=
  exists id,
    getProp c "_id" = Ok id
    /\ (strictEq id caseId = false -> c' = c)
    /\ (strictEq id caseId = true ->
        exists ps ps',
          c = VObj ps /\ c' = VObj ps'
          /\ lookup "status" ps' = Some newStatus
          /\ (forall k, k <> "status" -> lookup k ps' = lookup k ps)
          /\ filter (fun kv => negb (String.eqb (fst kv) "status")) ps'
             = filter (fun kv => negb (String.eqb (fst kv) "status")) ps).

(** A doctor record is identified by [ref] when its [_id] or its [id] is
    that string. *)
Definition identifiedBy (ref : string) (d : value) : bool :=
  strictEq (under d "_id") (PStr ref) || strictEq (under d "id") (PStr ref).

(** The creation timestamp a record carries, in milliseconds: its
    [createdAt] when that is a number a date can hold (at most 8.64e15 in
    absolute value) or a date string the parser accepts.  A record without
    [createdAt], or with anything else there, carries none. *)
Definition stamp (parseDate : string -> option Z) (c : value) : option Z :=
  match c with
  | VObj ps =>
      match lookup "createdAt" ps with
      | Some (VPrim (PNum z)) =>
          if ((-8640000000000000 <=? z) && (z <=? 8640000000000000))%Z
          then Some z else None
      | Some (VPrim (PStr s)) => parseDate s
      | _ => None
      end
  | _ => None
  end.

(** The creation time of a record, for records that carry one. *)
Definition timeOf (parseDate : string -> option Z) (c : value) : Z :=
  match stamp parseDate c with
  | Some t => t
  | None => 0%Z
  end.

Definition hasTime (parseDate : string -> option Z) (c : value) : Prop :=
  exists t, stamp parseDate c = Some t.

(** [a] was created no earlier than [b]. *)
Definition notOlder (parseDate : string -> option Z) (a b : value) : Prop :=
  (timeOf parseDate b <= timeOf parseDate a)%Z.

Definition createdAtTime (parseDate : string -> option Z) (t : Z) (c : value)
  : bool :=
  Z.eqb (timeOf parseDate c) t.

(** "No result" is [null]. *)
Definition orNull (o : option value) : value :=
  match o with
  | Some v => v
  | None => null
  end.

End Spec.

(* ===================================================================== *)
(** ** What the comparator of [recentCases] reads *)
(* ===================================================================== *)

Module Compared.
Import JS Dashboard.

(** The comparator reads a time from a record when [createdTime] returns
    one. *)
Definition timed (parseDate : string -> option Z) (c : value) : Prop :=
  exists t, createdTime parseDate c = Ok (Some t).

Definition timeOf (parseDate : string -> option Z) (c : value) : Z :=
  match createdTime parseDate c with
  | Ok (Some t) => t
  | _ => 0%Z
  end.

Definition notOlder (parseDate : string -> option Z) (a b : value) : Prop :=
  (timeOf parseDate b <= timeOf parseDate a)%Z.

Definition atTime (parseDate : string -> option Z) (t : Z) (c : value)
  : bool :=
  Z.eqb (timeOf parseDate c) t.

End Compared.

(* ===================================================================== *)
(** ** Sample data *)
(* ===================================================================== *)

Module Sample.
Import JS.

(** { status: s } *)
Definition caseWithStatus (s : string) : value := VObj [("status", VStr s)].

Definition case1 : value :=
  VObj [("_id", VStr "c1"); ("status", VStr "Pending");
        ("title", VStr "Knee surgery"); ("createdAt", VNum 1000)].

Definition case2 : value :=
  VObj [("_id", VStr "c2"); ("status", VStr "Assigned");
        ("createdAt", VNum 2000)].

Definition sampleCases : list value := [case1; case2].

(** { id: n, createdAt: n } *)
Definition caseAt (n : Z) : value :=
  VObj [("id", VNum n); ("createdAt", VNum n)].

Definition sevenCases : list value := map caseAt [1; 2; 3; 4; 5; 6; 7]%Z.

(** A case created at 1000, a case without [createdAt], a case created at
    3000. *)
Definition undatedCases : list value :=
  [VObj [("_id", VStr "a"); ("createdAt", VNum 1000)];
   VObj [("_id", VStr "b")];
   VObj [("_id", VStr "c"); ("createdAt", VNum 3000)]].

(** A date parser that accepts no string. *)
Definition noDates (s : string) : option Z := None.

Definition sampleDoctors : list value :=
  [VObj [("_id", VStr "d1"); ("name", VStr "Dr. A")]].

Definition sampleState : Dashboard.State :=
  Dashboard.mkState sampleCases null PNull [].

End Sample.

(* ===================================================================== *)
(** ** The rest of the component *)
(* ===================================================================== *)

Module View.
Import JS Dashboard.

(** *** Array responses *)

(** [Array.isArray(v) ? v : []] *)
Definition arrayOrEmpty (v : value) : list value :=
  match v with
  | VArr l => l
  | _ => []
  end.

(** *** KPI cards ([cardConfigs], [onCardClick]) *)

(** A card, without its colour and icon.  [cardValue] is [None] when the
    property read on [stats] is [undefined]. *)
Record Card : Type := mkCard {
  cardLabel : string;
  cardValue : option nat;
  cardStatusQuery : string
}.

(** [stats.failed] names no property of the snapshot. *)
Definition cardConfigs (stats : Count) : list Card :=
  [ mkCard "pending" (Some (pending stats)) "Pending";
    mkCard "inProgress" (Some (inprogress stats)) "In Progress";
    mkCard "followUps" (Some (followup stats)) "Follow Up";
    mkCard "assigned" (Some (assigned stats)) "Assigned";
    mkCard "closed" (Some (closed stats)) "Closed";
    mkCard "totalCases" (Some (total stats)) "All";
    mkCard "failedCases" None "Failed Cases" ].

(** [card.value ?? 0] *)
Definition shownValue (card : Card) : nat :=
  match cardValue card with
  | Some n => n
  | None => 0
  end.

(** [onCardClick]: the [status] parameter of the URL after the click,
    [None] when [setSearchParams({})] has removed it. *)
Definition onCardClick (status : string) : option string :=
  if String.eqb status "All" then None else Some status.

(** onClick={() => onCardClick(card.label)} *)
Definition clickCard (card : Card) : option string :=
  onCardClick (cardLabel card).

(** *** Table row *)

(** The value of the status selector of a row: [c.status || "Pending"]. *)
Definition shownStatus (c : value) : result value :=
  st <- getProp c "status" ;; Ok (or_else st (VStr "Pending")).

(** *** Status selector of the details modal *)

(** The code that follows a call of an asynchronous function runs before
    the function resumes from its first [await]. *)
Definition thenSync (f : State -> State) (p : proc) : proc :=
  match p with
  | Done s => Done (f s)
  | Crash e => Crash e
  | Await s r k => Await s r (fun s' o => k (f s') o)
  end.

(** The [onChange] of the modal's selector, [caseId] being [item._id]:
<<
    handleUpdateStatus(item._id, e.target.value);
    setSelectedCase((prev) => ({ ...prev, status: e.target.value }));
>> *)
Definition modalOnChange (caseId : prim) (newStatus : value) (s : State)
  : proc :=
  thenSync
    (setSelectedCase
       (fun prev => VObj (setProp "status" newStatus (spread prev))))
    (handleUpdateStatus caseId newStatus s).

(** *** Overlapping updates *)

(** A waiting handler resumes in the state [s'] that the component has
    reached by then. *)
Definition resume (p : proc) (s' : State) (o : option value) : proc :=
  match p with
  | Await _ _ k => k s' o
  | _ => p
  end.

(** The state in which a handler left the component when it returned to
    its caller. *)
Definition stateAfterCall (p : proc) (s : State) : State :=
  match p with
  | Done s' => s'
  | Await s' _ _ => s'
  | Crash _ => s
  end.

(** *** Disabled selectors *)

(** disabled={updatingCaseId === c._id} *)
Definition rowDisabled (s : State) (c : value) : result bool :=
  id <- getProp c "_id" ;; Ok (strictEq id (updatingCaseId s)).

(** *** The "Open Page" button of the modal *)

(** The characters [encodeURIComponent] leaves as they are: letters,
    digits and [- _ . ! ~ * ' ( )]. *)
Definition unreserved (c : ascii) : bool :=
  let n := N_of_ascii c in
  ((65 <=? n) && (n <=? 90) || (97 <=? n) && (n <=? 122)
   || (48 <=? n) && (n <=? 57)
   || (n =? 45) || (n =? 95) || (n =? 46) || (n =? 33) || (n =? 126)
   || (n =? 42) || (n =? 39) || (n =? 40) || (n =? 41))%N.

Definition hexDigit (n : N) : ascii :=
  if (n <? 10)%N then ascii_of_N (48 + n) else ascii_of_N (55 + n).

(** [%XX] for one byte. *)
Definition percent (byte : N) : string :=
  String "%" (String (hexDigit (byte / 16))
                     (String (hexDigit (byte mod 16)) EmptyString)).

(** One code unit below U+0100: itself when unreserved, otherwise the
    percent-encoding of its UTF-8 bytes (one byte below U+0080, two
    bytes from there on). *)
Definition encodeUnit (c : ascii) : string :=
  let n := N_of_ascii c in
  if unreserved c then String c EmptyString
  else if (n <? 128)%N then percent n
  else percent (192 + n / 64) ++ percent (128 + n mod 64).

Fixpoint encodeURIComponent (s : string) : string :=
  match s with
  | EmptyString => EmptyString
  | String c rest => encodeUnit c ++ encodeURIComponent rest
  end.

(** The argument of [navigate] in the button's [onClick]:
<<
    `/facilitator/case-by-ref?ref=${encodeURIComponent(item.referenceId || "")}`
>> *)
Definition openPageTarget (item : value) : result string :=
  ref <- getProp item "referenceId" ;;
  Ok ("/facilitator/case-by-ref?ref="
      ++ encodeURIComponent (toString (or_else ref (VStr "")))).

(** The characters that structure a URL or its query. *)
Definition separators : list ascii :=
  ["&"; "#"; "="; "?"; "/"; "+"; " "; "<"; ">"]%char.

(** disabled={!item.referenceId} *)
Definition openPageDisabled (item : value) : result bool :=
  ref <- getProp item "referenceId" ;; Ok (negb (truthy ref)).

End View.

(* ===================================================================== *)
(** ** Counting records by normalized status *)
(* ===================================================================== *)

Module Tally.
Import JS Dashboard.

(** The number of records of a collection whose normalized status key
    satisfies [p]. *)
Definition withKey (p : string -> bool) (cs : list value) : nat :=
  length
    (filter (fun c => match status_key c with
                      | Ok key => p key
                      | Throw _ => false
                      end) cs).

(** Keys that are no property of the counter object, own or inherited. *)
Definition unlisted (key : string) : bool :=
  match count_slot key with
  | Missing => true
  | _ => false
  end.

(** A record whose status [stats] can normalize: an object (or any
    non-nullish value) whose [status] is falsy or a string. *)
Definition countable (c : value) : Prop :=
  exists key, status_key c = Ok key.

(** The three keys that [count] answers although they are no bucket. *)
Definition shadowed (key : string) : bool :=
  String.eqb key "total" || String.eqb key "constructor"
  || String.eqb key "__proto__".

End Tally.

(* ===================================================================== *)
(** ** Properties *)
(* ===================================================================== *)

Module Props.
Import JS Dashboard Sample.

(** *** Status tab *)

Lemma toLowerCase_nonempty (p s : string) :
  In s STATUSES -> toLowerCase p = toLowerCase s -> p <> "".
Proof.
  intros Hin Heq ->. simpl in Hin.
  repeat (destruct Hin as [<- | Hin]; [discriminate Heq|]).
  exact Hin.
Qed.

(** C8. The status filter derived from the URL parameter is "All" when
    the parameter is absent, the member of the status enumeration that
    equals the parameter up to letter case when there is one, and "All"
    when there is none; it is always "All" or a member of the enumeration. *)
Theorem statusTab_matches_case_insensitively (param : option string) :
  (param = None -> statusTab param = "All")
  /\ (forall p s, param = Some p -> In s STATUSES ->
        toLowerCase p = toLowerCase s -> statusTab param = s)
  /\ (forall p, param = Some p ->
        (forall s, In s STATUSES -> toLowerCase p <> toLowerCase s) ->
        statusTab param = "All")
  /\ (statusTab param = "All" \/ In (statusTab param) STATUSES).
Proof.
  split; [intros ->; reflexivity|].
  split.
  { intros p s -> Hin Heq.
    pose proof (toLowerCase_nonempty p s Hin Heq) as Hne.
    apply String.eqb_neq in Hne.
    unfold statusTab. rewrite Hne.
    simpl in Hin.
    repeat (destruct Hin as [<- | Hin]; [rewrite Heq; reflexivity|]).
    contradiction. }
  split.
  { intros p -> Hnone. unfold statusTab.
    destruct (String.eqb p ""); [reflexivity|].
    destruct (find _ STATUSES) as [m|] eqn:E; [|reflexivity].
    apply find_some in E. destruct E as [Hin Heq].
    apply String.eqb_eq in Heq. exfalso. apply (Hnone m Hin). congruence. }
  destruct param as [p|]; [|left; reflexivity].
  unfold statusTab.
  destruct (String.eqb p ""); [left; reflexivity|].
  destruct (find _ STATUSES) as [m|] eqn:E; [|left; reflexivity].
  apply find_some in E. destruct E as [Hin _].
  destruct (String.eqb m ""); [left; reflexivity | right; exact Hin].
Qed.

Lemma statusTab_matches_case_insensitively_witness :
  statusTab (Some "in PROGRESS") = "In Progress"
  /\ statusTab (Some "archived") = "All"
  /\ statusTab None = "All".
Proof.
  split; [|split].
  - apply (statusTab_matches_case_insensitively (Some "in PROGRESS"))
      with (p := "in PROGRESS");
      [reflexivity | simpl; tauto | reflexivity].
  - apply (statusTab_matches_case_insensitively (Some "archived"))
      with (p := "archived"); [reflexivity|].
    intros s Hin. simpl in Hin.
    repeat (destruct Hin as [<- | Hin]; [discriminate|]). contradiction.
  - apply (statusTab_matches_case_insensitively None). reflexivity.
Defined.

(** *** Case statistics *)

Lemma status_key_absent (ps : props) :
  lookup "status" ps = None -> status_key (VObj ps) = Ok "unknown".
Proof. intros H. unfold status_key. simpl. rewrite H. reflexivity. Qed.

Lemma status_key_string (ps : props) (s : string) :
  lookup "status" ps = Some (VStr s) -> s <> "" ->
  status_key (VObj ps) = Ok (removeSpaces (toLowerCase s)).
Proof.
  intros H Hne. unfold status_key. simpl. rewrite H. simpl.
  unfold or_else. simpl. apply String.eqb_neq in Hne. rewrite Hne.
  reflexivity.
Qed.

(** Away from the three keys that [count] answers without their being a
    status bucket, one record adds one to the total and one to the bucket
    of its normalized key, or to [unknown] when the key is no bucket. *)
Lemma stats_step_bucketed (count : Count) (c : value) (key : string) :
  status_key c = Ok key ->
  key <> "total" -> key <> "constructor" -> key <> "__proto__" ->
  stats_step count c =
  Ok (incr (match known_bucket key with Some f => f | None => Unknown end)
           (incr Total count)).
Proof.
  intros Hk Ht Hc Hp. unfold stats_step. rewrite Hk. simpl.
  apply String.eqb_neq in Ht, Hc, Hp.
  unfold bump, count_slot, known_bucket. rewrite Ht, Hc, Hp.
  repeat match goal with
         | |- context [String.eqb key ?s] => destruct (String.eqb key s)
         end; reflexivity.
Qed.

Lemma bucket_sum_incr (f : field) (c : Count) :
  f <> Total ->
  bucket_sum (incr f (incr Total c)) = S (bucket_sum c)
  /\ total (incr f (incr Total c)) = S (total c).
Proof.
  intros Hf. destruct f; try congruence; unfold bucket_sum; simpl; lia.
Qed.

Lemma stats_balanced_from (cases : list value) :
  forall (c0 c : Count),
    Forall (fun x => forall key, status_key x = Ok key ->
                       key <> "total" /\ key <> "constructor"
                       /\ key <> "__proto__") cases ->
    foldM stats_step cases c0 = Ok c ->
    bucket_sum c0 = total c0 -> bucket_sum c = total c.
Proof.
  induction cases as [|x xs IH]; intros c0 c Hall Hrun Hbal; simpl in Hrun.
  - injection Hrun as <-. exact Hbal.
  - inversion Hall as [|? ? Hx Hxs]; subst.
    destruct (status_key x) as [key|e] eqn:Hk.
    + destruct (Hx key eq_refl) as (Ht & Hc & Hp).
      rewrite (stats_step_bucketed c0 x key Hk Ht Hc Hp) in Hrun.
      cbn [bind] in Hrun. eapply IH; [exact Hxs | exact Hrun |].
      set (f := match known_bucket key with Some f => f | None => Unknown end).
      assert (Hf : f <> Total).
      { unfold f, known_bucket.
        repeat match goal with
               | |- context [String.eqb key ?s] => destruct (String.eqb key s)
               end; discriminate. }
      destruct (bucket_sum_incr f c0 Hf) as [Hs Ht'].
      change (bucket_sum (incr f (incr Total c0))
              = total (incr f (incr Total c0))).
      congruence.
    + unfold stats_step in Hrun. rewrite Hk in Hrun. discriminate.
Qed.

(** With no record whose normalized status is [total], [constructor] or
    [__proto__], the seven buckets of the snapshot add up to its total. *)
Lemma stats_balanced (cases : list value) (c : Count) :
  Forall (fun x => forall key, status_key x = Ok key ->
                     key <> "total" /\ key <> "constructor"
                     /\ key <> "__proto__") cases ->
  stats cases = Ok c -> bucket_sum c = total c.
Proof.
  intros Hall Hrun. eapply stats_balanced_from; eauto.
Qed.

(** C1. A record whose status is "Total" normalizes to the key [total],
    which is none of the six buckets; the record adds two to the total
    counter and nothing to [unknown] (nor to any other bucket). *)
Theorem stats_step_total_key_not_unknown :
  status_key (caseWithStatus "Total") = Ok "total"
  /\ known_bucket "total" = None
  /\ stats_step count0 (caseWithStatus "Total")
     = Ok (mkCount 2 0 0 0 0 0 0 0).
Proof. repeat split. Qed.

(** C2. On the collection of a pending case and a case whose status is
    "total", the snapshot counts a total of 3 while its seven buckets add
    up to 1. *)
Theorem stats_buckets_miss_total :
  stats [caseWithStatus "Pending"; caseWithStatus "total"]
  = Ok (mkCount 3 1 0 0 0 0 0 0)
  /\ bucket_sum (mkCount 3 1 0 0 0 0 0 0) = 1
  /\ total (mkCount 3 1 0 0 0 0 0 0) = 3.
Proof. repeat split. Qed.

(** *** Reads and values *)

Lemma getProp_under (v : value) (k : string) :
  nullish v = false -> getProp v k = Ok (Spec.under v k).
Proof.
  destruct v as [[| | | |]| |ps]; simpl; try discriminate; try reflexivity.
  intros _. destruct (lookup k ps); reflexivity.
Qed.

Lemma truthy_not_nullish (v : value) : truthy v = true -> nullish v = false.
Proof. destruct v as [[| | | |]| |]; simpl; congruence. Qed.

Lemma hasId_carries (v : value) :
  nullish v = false -> hasId v = Ok (Spec.carriesIdentifier v).
Proof.
  destruct v as [[| | | |]| |ps]; simpl; try discriminate; try reflexivity.
  intros _. unfold hasId, idOf. simpl.
  destruct (lookup "_id" ps) as [a|]; simpl.
  - destruct (truthy a) eqn:Ha; simpl; [rewrite Ha; reflexivity|].
    destruct (lookup "id" ps); reflexivity.
  - destruct (lookup "id" ps); reflexivity.
Qed.

Lemma carries_is_object (v : value) :
  Spec.carriesIdentifier v = true -> exists ps, v = VObj ps.
Proof. destruct v; simpl; try discriminate. eauto. Qed.

Lemma guarded_hasId (v : value) :
  (if truthy v then hasId v else Ok false) = Ok (Spec.carriesIdentifier v).
Proof.
  destruct (truthy v) eqn:Ht.
  - apply hasId_carries, truthy_not_nullish, Ht.
  - destruct v; simpl in *; try discriminate; reflexivity.
Qed.

Lemma values_of_indexed (l : list value) : map snd (indexed l) = l.
Proof.
  unfold indexed. rewrite map_map. simpl.
  generalize 0. induction l as [|x xs IH]; intros n; simpl;
    [reflexivity | now rewrite IH].
Qed.

Lemma objectValues_array (l : list value) : objectValues (VArr l) = l.
Proof. apply values_of_indexed. Qed.

Lemma objectValues_prim (p : prim) :
  Forall (fun v => exists q, v = VPrim q) (objectValues (VPrim p)).
Proof.
  unfold objectValues. destruct p; simpl; try constructor.
  rewrite values_of_indexed. induction s as [|c s IH]; simpl; constructor.
  - exists (PStr (String c "")). reflexivity.
  - exact IH.
Qed.

(** *** Extraction *)

Lemma findM_pure {A : Type} (f : A -> result bool) (g : A -> bool)
  (l : list A) :
  (forall x, f x = Ok (g x)) -> findM f l = Ok (find g l).
Proof.
  intros H. induction l as [|x xs IH]; simpl; [reflexivity|].
  rewrite H. simpl. destruct (g x); [reflexivity | exact IH].
Qed.

Lemma nestedCandidate_pure (v : value) :
  nestedCandidate v
  = Ok (Spec.objectShaped v && Spec.carriesIdentifier v).
Proof.
  unfold nestedCandidate.
  destruct v as [[| | | |]| |ps]; simpl; try reflexivity;
    try (destruct (negb _); reflexivity).
  - destruct b; reflexivity.
  - apply (hasId_carries (VObj ps)). reflexivity.
Qed.

Lemma probe_pure (data : value) (keys : list string) :
  nullish data = false ->
  probe data keys
  = Ok (option_map (Spec.under data)
          (find (fun key => Spec.carriesIdentifier (Spec.under data key))
                keys)).
Proof.
  intros Hd. induction keys as [|key rest IH]; simpl; [reflexivity|].
  rewrite (getProp_under data key Hd). simpl.
  rewrite guarded_hasId. simpl.
  destruct (Spec.carriesIdentifier (Spec.under data key));
    [reflexivity | exact IH].
Qed.

Lemma extraction_of_falsy (data : value) :
  truthy data = false -> Spec.extraction data = None.
Proof.
  destruct data as [p| |]; simpl; try discriminate.
  intros Hp. unfold Spec.extraction. simpl.
  destruct p; simpl in Hp; try discriminate; try reflexivity.
  apply negb_false_iff, String.eqb_eq in Hp. subst. reflexivity.
Qed.

Lemma extraction_carries (data v : value) :
  Spec.extraction data = Some v -> Spec.carriesIdentifier v = true.
Proof.
  unfold Spec.extraction.
  destruct (Spec.carriesIdentifier data) eqn:Hd.
  - intros [= <-]. exact Hd.
  - destruct (find _ ["case"; "data"; "result"; "payload"]) as [key|] eqn:Hk.
    + intros [= <-]. apply find_some in Hk. apply Hk.
    + intros Hf. apply find_some in Hf. destruct Hf as [_ Hf].
      apply andb_true_iff in Hf. apply Hf.
Qed.

(** The extraction computes what the specification describes, and never
    throws. *)
Lemma extractUpdatedCase_eq (data : value) :
  extractUpdatedCase data = Ok (Spec.orNull (Spec.extraction data)).
Proof.
  unfold extractUpdatedCase.
  destruct (truthy data) eqn:Ht; cbn [negb].
  2:{ rewrite (extraction_of_falsy data Ht). reflexivity. }
  pose proof (truthy_not_nullish data Ht) as Hn.
  rewrite (hasId_carries data Hn). cbn [bind].
  unfold Spec.extraction.
  destruct (Spec.carriesIdentifier data); [reflexivity|].
  rewrite (probe_pure data wrapperKeys Hn). cbn [bind]. unfold wrapperKeys.
  destruct (find _ ["case"; "data"; "result"; "payload"]) as [key|];
    [reflexivity|].
  cbn [option_map].
  rewrite (findM_pure nestedCandidate _ _ nestedCandidate_pure). cbn [bind].
  destruct (find _ (objectValues data)) as [v|] eqn:Hf; [|reflexivity].
  apply find_some in Hf. destruct Hf as [_ Hf].
  apply andb_true_iff in Hf. destruct Hf as [Hf _].
  unfold or_else. destruct v; simpl in *; try discriminate; reflexivity.
Qed.

(** C10. The extraction is total: on every value it returns, without
    throwing, either [null] or an object; on every primitive ([null],
    [undefined], strings, numbers, booleans) it returns [null]. *)
Theorem extractUpdatedCase_total (data : value) :
  exists r,
    extractUpdatedCase data = Ok r
    /\ (r = null \/ exists ps, r = VObj ps)
    /\ (forall p, data = VPrim p -> r = null).
Proof.
  exists (Spec.orNull (Spec.extraction data)).
  split; [apply extractUpdatedCase_eq|]. split.
  - destruct (Spec.extraction data) as [v|] eqn:He; [right | left; reflexivity].
    apply carries_is_object, (extraction_carries data), He.
  - intros p ->. unfold Spec.extraction. simpl.
    destruct (find _ (objectValues (VPrim p))) as [v|] eqn:Hf; [|reflexivity].
    apply find_some in Hf. destruct Hf as [Hin Hf].
    pose proof (objectValues_prim p) as Hall.
    rewrite Forall_forall in Hall. destruct (Hall v Hin) as [q ->].
    discriminate Hf.
Qed.

(** *** The optimistic rewrite *)

Lemma lookup_setProp_same (k : string) (v : value) (ps : props) :
  lookup k (setProp k v ps) = Some v.
Proof.
  induction ps as [|[k' v'] rest IH]; simpl.
  - now rewrite String.eqb_refl.
  - destruct (String.eqb k' k) eqn:E; simpl; rewrite E; [reflexivity | exact IH].
Qed.

Lemma lookup_setProp_other (k k' : string) (v : value) (ps : props) :
  k' <> k -> lookup k' (setProp k v ps) = lookup k' ps.
Proof.
  intros Hne. induction ps as [|[k0 v0] rest IH]; simpl.
  - destruct (String.eqb_spec k k'); [congruence | reflexivity].
  - destruct (String.eqb_spec k0 k) as [->|Hk0]; simpl.
    + destruct (String.eqb_spec k k'); [congruence | reflexivity].
    + now rewrite IH.
Qed.

(** Dropping the bindings of [k] from both sides, assigning [k] changes
    nothing: the other properties keep their values and their order. *)
Lemma setProp_frame (k : string) (v : value) (ps : props) :
  filter (fun kv => negb (String.eqb (fst kv) k)) (setProp k v ps)
  = filter (fun kv => negb (String.eqb (fst kv) k)) ps.
Proof.
  induction ps as [|[k0 v0] rest IH]; simpl.
  - now rewrite String.eqb_refl.
  - destruct (String.eqb k0 k) eqn:E; simpl; rewrite E; simpl;
      [reflexivity | now rewrite IH].
Qed.

Lemma mapM_total {A B : Type} (f : A -> result B) (l : list A) :
  Forall (fun x => exists y, f x = Ok y) l -> exists l', mapM f l = Ok l'.
Proof.
  induction 1 as [|x xs [y Hy] _ [ys Hys]]; simpl.
  - eauto.
  - rewrite Hy, Hys. simpl. eauto.
Qed.

Lemma mapM_Forall2 {A B : Type} (f : A -> result B) (l : list A)
  (l' : list B) :
  mapM f l = Ok l' -> Forall2 (fun x y => f x = Ok y) l l'.
Proof.
  revert l'. induction l as [|x xs IH]; simpl; intros l' H.
  - injection H as <-. constructor.
  - destruct (f x) as [y|] eqn:Hy; simpl in H; [|discriminate].
    destruct (mapM f xs) as [ys|] eqn:Hys; simpl in H; [|discriminate].
    injection H as <-. constructor; [exact Hy | apply IH; reflexivity].
Qed.

Lemma optimistic_total (caseId : prim) (newStatus c : value) :
  nullish c = false -> exists c', optimistic caseId newStatus c = Ok c'.
Proof.
  intros Hn. unfold optimistic. rewrite (getProp_under c "_id" Hn).
  simpl. eauto.
Qed.

Lemma optimistic_not_nullish (caseId : prim) (newStatus c c' : value) :
  optimistic caseId newStatus c = Ok c' -> nullish c' = false.
Proof.
  unfold optimistic. destruct (getProp c "_id") as [id|] eqn:Hid; simpl;
    [|discriminate].
  intros [= <-]. destruct (strictEq id caseId); [reflexivity|].
  destruct c as [[| | | |]| |]; simpl in *; congruence.
Qed.

(** A record whose [_id] is strictly equal to a truthy identifier is an
    object. *)
Lemma matching_record_is_object (caseId : prim) (c id : value) :
  truthy_prim caseId = true ->
  getProp c "_id" = Ok id -> strictEq id caseId = true ->
  exists ps, c = VObj ps.
Proof.
  intros Ht Hid Heq.
  destruct c as [[| | | |]| |ps]; simpl in Hid; try discriminate;
    try (injection Hid as <-; destruct caseId; simpl in *; discriminate).
  eauto.
Qed.

Lemma mapM_optimistic_total (caseId : prim) (newStatus : value)
  (cs : list value) :
  Forall (fun c => nullish c = false) cs ->
  exists cs', mapM (optimistic caseId newStatus) cs = Ok cs'.
Proof.
  intros Hall. apply mapM_total.
  eapply Forall_impl; [|exact Hall]. intros c Hc.
  now apply optimistic_total.
Qed.

Lemma optimistic_patched (caseId : prim) (newStatus c c' : value) :
  truthy_prim caseId = true ->
  optimistic caseId newStatus c = Ok c' ->
  Spec.statusPatched caseId newStatus c c'.
Proof.
  intros Ht Hopt. unfold optimistic in Hopt. unfold Spec.statusPatched.
  destruct (getProp c "_id") as [id|] eqn:Hid; simpl in Hopt; [|discriminate].
  injection Hopt as <-. exists id. split; [reflexivity|]. split.
  - intros ->. reflexivity.
  - intros Heq. rewrite Heq.
    destruct (matching_record_is_object caseId c id Ht Hid Heq) as [ps ->].
    exists ps, (setProp "status" newStatus ps). simpl.
    repeat split.
    + apply lookup_setProp_same.
    + intros k Hk. now apply lookup_setProp_other.
    + apply setProp_frame.
Qed.

(** C9. For a present (truthy) identifier and a collection of records, the
    optimistic rewrite returns a collection of the same length whose i-th
    record is the i-th record of the input when its [_id] differs from the
    identifier and otherwise is that record with [status] set to the new
    status: every other property keeps its value, and the properties other
    than [status] are the same, in the same order. *)
Theorem optimistic_rewrite_frame (caseId : prim) (newStatus : value)
  (cs : list value) :
  truthy_prim caseId = true ->
  Forall (fun c => nullish c = false) cs ->
  exists cs',
    mapM (optimistic caseId newStatus) cs = Ok cs'
    /\ length cs' = length cs
    /\ Forall2 (Spec.statusPatched caseId newStatus) cs cs'.
Proof.
  intros Ht Hall.
  destruct (mapM_optimistic_total caseId newStatus cs Hall) as [cs' Hcs'].
  exists cs'. split; [exact Hcs'|].
  apply mapM_Forall2 in Hcs'.
  split.
  - symmetry. eapply Forall2_length, Hcs'.
  - eapply Forall2_impl; [|exact Hcs'].
    intros c c' Hopt. now apply optimistic_patched.
Qed.

Lemma optimistic_rewrite_frame_witness :
  truthy_prim (PStr "c1") = true
  /\ Forall (fun c => nullish c = false) sampleCases
  /\ exists cs',
       mapM (optimistic (PStr "c1") (VStr "Closed")) sampleCases = Ok cs'
       /\ length cs' = length sampleCases
       /\ Forall2 (Spec.statusPatched (PStr "c1") (VStr "Closed"))
                  sampleCases cs'.
Proof.
  split; [reflexivity|]. split; [repeat constructor|].
  apply (optimistic_rewrite_frame (PStr "c1") (VStr "Closed") sampleCases);
    [reflexivity | repeat constructor].
Defined.

(** *** The status update *)

Lemma handleUpdateStatus_absent (caseId : prim) (newStatus : value)
  (s : State) :
  truthy_prim caseId = false -> handleUpdateStatus caseId newStatus s = Done s.
Proof. intros H. unfold handleUpdateStatus. now rewrite H. Qed.

(** Past the guard and the rewrite, the handler is waiting on the PUT. *)
Lemma handleUpdateStatus_issued (caseId : prim) (newStatus : value)
  (s : State) (cs : list value) :
  truthy_prim caseId = true ->
  mapM (optimistic caseId newStatus) (cases s) = Ok cs ->
  handleUpdateStatus caseId newStatus s
  = Await (mkState cs (selectedCase s) caseId (notices s))
          (PutStatus caseId newStatus)
          (fun s' res =>
             andFinally (setUpdatingCaseId PNull)
               match res with
               | Some data =>
                   match reconcile (selectedCase s) data s' with
                   | Ok p => p
                   | Throw _ => recover s'
                   end
               | None => recover s'
               end).
Proof.
  intros Ht Hcs. unfold handleUpdateStatus, setCases. rewrite Ht. simpl.
  rewrite Hcs. reflexivity.
Qed.

Lemma handleUpdateStatus_crash (caseId : prim) (newStatus : value)
  (s : State) (e : error) :
  truthy_prim caseId = true ->
  mapM (optimistic caseId newStatus) (cases s) = Throw e ->
  handleUpdateStatus caseId newStatus s = Crash e.
Proof.
  intros Ht Hcs. unfold handleUpdateStatus, setCases. rewrite Ht. simpl.
  rewrite Hcs. reflexivity.
Qed.

Lemma mapM_optimistic_not_nullish (caseId : prim) (newStatus : value)
  (cs cs' : list value) :
  mapM (optimistic caseId newStatus) cs = Ok cs' ->
  Forall (fun c => nullish c = false) cs'.
Proof.
  intros H. apply mapM_Forall2 in H.
  induction H as [|c c' l l' Hc _ IH]; constructor; [|exact IH].
  eapply optimistic_not_nullish, Hc.
Qed.

Lemma idOf_total (v : value) :
  nullish v = false -> exists i, idOf v = Ok i.
Proof.
  intros Hn. unfold idOf. rewrite (getProp_under v "_id" Hn). simpl.
  destruct (truthy _); [eauto|]. rewrite (getProp_under v "id" Hn). eauto.
Qed.

Lemma mergeUpdated_total (id updated c : value) :
  nullish c = false -> exists c', mergeUpdated id updated c = Ok c'.
Proof.
  intros Hn. unfold mergeUpdated. rewrite (getProp_under c "_id" Hn).
  simpl. eauto.
Qed.

(** With records only in the collection, the [try] body runs to its end:
    it neither throws nor waits. *)
Lemma reconcile_done (selected data : value) (s : State) :
  Forall (fun c => nullish c = false) (cases s) ->
  exists s', reconcile selected data s = Ok (Done s').
Proof.
  intros Hall. unfold reconcile.
  rewrite extractUpdatedCase_eq. cbn [bind].
  rewrite guarded_hasId. cbn [bind].
  set (updated := coalesce (Spec.orNull (Spec.extraction data)) data).
  destruct (Spec.carriesIdentifier updated) eqn:Hc; [|eauto].
  destruct (carries_is_object updated Hc) as [ps Hps].
  destruct (idOf_total updated) as [id Hid]; [rewrite Hps; reflexivity|].
  rewrite Hid. cbn [bind]. unfold setCases.
  destruct (mapM_total (mergeUpdated id updated) (cases s)) as [cs' Hcs'].
  { eapply Forall_impl; [|exact Hall]. intros c Hn.
    now apply mergeUpdated_total. }
  rewrite Hcs'. cbn [bind].
  destruct (truthy selected) eqn:Hs.
  - rewrite (getProp_under selected "_id" (truthy_not_nullish _ Hs)).
    cbn [bind]. eauto.
  - cbn [bind]. eauto.
Qed.

(** When nothing can be extracted from the response, the [try] body only
    warns. *)
Lemma reconcile_nothing_extracted (selected data : value) (s : State) :
  Spec.extraction data = None ->
  reconcile selected data s = Ok (Done (notify ConsoleWarn s)).
Proof.
  intros He. unfold reconcile.
  rewrite extractUpdatedCase_eq, He. cbn [bind Spec.orNull].
  unfold coalesce. simpl nullish. cbv iota.
  rewrite guarded_hasId. cbn [bind].
  unfold Spec.extraction in He.
  destruct (Spec.carriesIdentifier data); [discriminate | reflexivity].
Qed.

(** C3. With an absent (falsy) identifier the handler is finished at once
    in the state it was called in, so it changes nothing and issues no
    call.  With an identifier present and records in the collection, the
    handler's first remote call is the PUT for that identifier and status,
    and the state in which the call is issued already holds the rewritten
    collection, in which every record whose [_id] is the identifier has the
    new status. *)
Theorem handleUpdateStatus_guard_then_rewrite_then_put
  (caseId : prim) (newStatus : value) (s : State) :
  (truthy_prim caseId = false ->
   handleUpdateStatus caseId newStatus s = Done s
   /\ forall settled,
        run (handleUpdateStatus caseId newStatus s) settled = Finished s
        /\ calls (handleUpdateStatus caseId newStatus s) settled = [])
  /\ (truthy_prim caseId = true ->
      Forall (fun c => nullish c = false) (cases s) ->
      exists cs k,
        handleUpdateStatus caseId newStatus s
        = Await (mkState cs (selectedCase s) caseId (notices s))
                (PutStatus caseId newStatus) k
        /\ Forall2
             (fun c c' =>
                forall id, getProp c "_id" = Ok id ->
                           strictEq id caseId = true ->
                           getProp c' "status" = Ok newStatus)
             (cases s) cs
        /\ forall settled,
             exists later,
               calls (handleUpdateStatus caseId newStatus s) settled
               = (mkState cs (selectedCase s) caseId (notices s),
                  PutStatus caseId newStatus) :: later).
Proof.
  split.
  - intros Hf. rewrite (handleUpdateStatus_absent _ _ _ Hf).
    split; [reflexivity|]. intros settled. split; reflexivity.
  - intros Ht Hall.
    destruct (mapM_optimistic_total caseId newStatus (cases s) Hall)
      as [cs Hcs].
    rewrite (handleUpdateStatus_issued _ _ _ cs Ht Hcs).
    eexists cs, _. split; [reflexivity|]. split.
    + eapply Forall2_impl; [|apply mapM_Forall2, Hcs].
      intros c c' Hopt id' Hid' Heq.
      destruct (optimistic_patched _ _ _ _ Ht Hopt) as (id & Hid & _ & Hmatch).
      assert (id' = id) by congruence. subst id'.
      destruct (Hmatch Heq) as (ps & ps' & -> & -> & Hst & _).
      simpl. now rewrite Hst.
    + intros settled. simpl. eauto.
Qed.

Lemma handleUpdateStatus_guard_then_rewrite_then_put_witness :
  (truthy_prim PUndef = false
   /\ handleUpdateStatus PUndef (VStr "Closed") sampleState = Done sampleState)
  /\ (truthy_prim (PStr "c1") = true
      /\ Forall (fun c => nullish c = false) (cases sampleState)
      /\ exists cs k,
           handleUpdateStatus (PStr "c1") (VStr "Closed") sampleState
           = Await (mkState cs (selectedCase sampleState) (PStr "c1")
                            (notices sampleState))
                   (PutStatus (PStr "c1") (VStr "Closed")) k).
Proof.
  split.
  - split; [reflexivity|].
    apply (handleUpdateStatus_guard_then_rewrite_then_put
             PUndef (VStr "Closed") sampleState).
    reflexivity.
  - split; [reflexivity|]. split; [repeat constructor|].
    destruct (handleUpdateStatus_guard_then_rewrite_then_put
                (PStr "c1") (VStr "Closed") sampleState) as [_ H].
    destruct (H eq_refl) as (cs & k & Hk & _); [repeat constructor|].
    exists cs, k. exact Hk.
Defined.

(** C4. With an identifier present and records in the collection: when the
    PUT fails the handler asks the service for the whole collection again;
    when that reload succeeds the local collection becomes the reloaded
    one (the empty one if the response is not an array), whatever the
    optimistic rewrite had produced; when the reload fails too the
    optimistically rewritten collection stays; the operator is alerted in
    both cases.  In each of these outcomes, and when the PUT succeeds with
    any response body, the handler finishes with the in-flight marker
    reset to [null]. *)
Theorem handleUpdateStatus_failure_reloads_and_marker_cleared
  (caseId : prim) (newStatus : value) (s : State) :
  truthy_prim caseId = true ->
  Forall (fun c => nullish c = false) (cases s) ->
  exists cs,
    mapM (optimistic caseId newStatus) (cases s) = Ok cs
    /\ (exists s1,
          run (handleUpdateStatus caseId newStatus s) [None]
          = Waiting s1 GetQueries
          /\ cases s1 = cs /\ updatingCaseId s1 = caseId)
    /\ (forall data,
          exists s2,
            run (handleUpdateStatus caseId newStatus s) [None; Some data]
            = Finished s2
            /\ cases s2 = match data with VArr l => l | _ => [] end
            /\ updatingCaseId s2 = PNull
            /\ In Alert (notices s2))
    /\ (exists s2,
          run (handleUpdateStatus caseId newStatus s) [None; None]
          = Finished s2
          /\ cases s2 = cs
          /\ updatingCaseId s2 = PNull
          /\ In Alert (notices s2))
    /\ (forall data,
          exists s2,
            run (handleUpdateStatus caseId newStatus s) [Some data]
            = Finished s2
            /\ updatingCaseId s2 = PNull).
Proof.
  intros Ht Hall.
  destruct (mapM_optimistic_total caseId newStatus (cases s) Hall)
    as [cs Hcs].
  exists cs. split; [exact Hcs|].
  rewrite (handleUpdateStatus_issued _ _ _ cs Ht Hcs).
  split; [|split; [|split]].
  - eexists. simpl. repeat split.
  - intros data. eexists. simpl. repeat split.
    apply in_or_app. right. left. reflexivity.
  - eexists. simpl. repeat split.
    apply in_or_app. right. left. reflexivity.
  - intros data. cbn [run].
    destruct (reconcile_done (selectedCase s) data
                (mkState cs (selectedCase s) caseId (notices s)))
      as [s' Hs'].
    { simpl. eapply mapM_optimistic_not_nullish, Hcs. }
    rewrite Hs'. simpl. eexists. split; reflexivity.
Qed.

Lemma handleUpdateStatus_failure_reloads_and_marker_cleared_witness :
  truthy_prim (PStr "c1") = true
  /\ Forall (fun c => nullish c = false) (cases sampleState)
  /\ exists s2,
       run (handleUpdateStatus (PStr "c1") (VStr "Closed") sampleState)
           [None; Some (VArr [case2])]
       = Finished s2
       /\ cases s2 = [case2]
       /\ updatingCaseId s2 = PNull.
Proof.
  split; [reflexivity|]. split; [repeat constructor|].
  destruct (handleUpdateStatus_failure_reloads_and_marker_cleared
              (PStr "c1") (VStr "Closed") sampleState eq_refl)
    as (cs & _ & _ & Hreload & _); [repeat constructor|].
  destruct (Hreload (VArr [case2])) as (s2 & Hrun & Hcases & Hmark & _).
  exists s2. repeat split; assumption.
Defined.

(** C5. The extraction returns what the strategy of the specification
    yields -- the body if it carries an identifier (a truthy [_id] or
    [id]), else the value under the first of the keys "case", "data",
    "result", "payload" that carries one, else the first object-shaped
    own value that carries one -- and [null] when the strategy yields
    nothing.  In that last case a successful PUT leaves the collection as
    the optimistic rewrite made it (and the selected case as it was), the
    handler only logging a warning; and in whatever state the handler
    resumes, it leaves the collection and the selected case of that state
    as they are. *)
Theorem extractUpdatedCase_follows_strategy (data : value) :
  extractUpdatedCase data = Ok (Spec.orNull (Spec.extraction data))
  /\ (Spec.extraction data = None ->
      forall caseId newStatus s,
        truthy_prim caseId = true ->
        Forall (fun c => nullish c = false) (cases s) ->
        exists cs,
          mapM (optimistic caseId newStatus) (cases s) = Ok cs
          /\ run (handleUpdateStatus caseId newStatus s) [Some data]
             = Finished (mkState cs (selectedCase s) PNull
                                 (notices s ++ [ConsoleWarn])%list)
          /\ forall s',
               View.resume (handleUpdateStatus caseId newStatus s) s'
                           (Some data)
               = Done (mkState (cases s') (selectedCase s') PNull
                               (notices s' ++ [ConsoleWarn])%list)).
Proof.
  split; [apply extractUpdatedCase_eq|].
  intros He caseId newStatus s Ht Hall.
  destruct (mapM_optimistic_total caseId newStatus (cases s) Hall)
    as [cs Hcs].
  exists cs. split; [exact Hcs|].
  rewrite (handleUpdateStatus_issued _ _ _ cs Ht Hcs). split.
  - cbn [run]. rewrite (reconcile_nothing_extracted _ _ _ He). reflexivity.
  - intros s'. cbn [View.resume].
    rewrite (reconcile_nothing_extracted _ _ _ He). reflexivity.
Qed.

Lemma extractUpdatedCase_follows_strategy_witness :
  extractUpdatedCase
    (VObj [("payload", VObj [("id", VStr "p7")]);
           ("case", VObj [("_id", VStr "c1")])])
  = Ok (VObj [("_id", VStr "c1")])
  /\ Spec.extraction (VObj [("unexpected", VStr "shape")]) = None
  /\ truthy_prim (PStr "c1") = true
  /\ Forall (fun c => nullish c = false) (cases sampleState)
  /\ exists cs,
       mapM (optimistic (PStr "c1") (VStr "Closed")) (cases sampleState)
       = Ok cs
       /\ run (handleUpdateStatus (PStr "c1") (VStr "Closed") sampleState)
              [Some (VObj [("unexpected", VStr "shape")])]
          = Finished (mkState cs (selectedCase sampleState) PNull
                              (notices sampleState ++ [ConsoleWarn])%list).
Proof.
  split.
  { destruct (extractUpdatedCase_follows_strategy
                (VObj [("payload", VObj [("id", VStr "p7")]);
                       ("case", VObj [("_id", VStr "c1")])])) as [H _].
    rewrite H. reflexivity. }
  split; [reflexivity|]. split; [reflexivity|]. split; [repeat constructor|].
  destruct (extractUpdatedCase_follows_strategy
              (VObj [("unexpected", VStr "shape")])) as [_ H].
  destruct (H eq_refl (PStr "c1") (VStr "Closed") sampleState eq_refl)
    as (cs & Hcs & Hrun & _); [repeat constructor|].
  exists cs. split; [exact Hcs | exact Hrun].
Defined.

(** The three responses the specification lists. *)
Example extract_wrapped :
  extractUpdatedCase
    (VObj [("case", VObj [("_id", VStr "c1"); ("status", VStr "Closed")])])
  = Ok (VObj [("_id", VStr "c1"); ("status", VStr "Closed")]).
Proof. reflexivity. Qed.

Example extract_direct :
  extractUpdatedCase (VObj [("_id", VStr "c1"); ("status", VStr "Closed")])
  = Ok (VObj [("_id", VStr "c1"); ("status", VStr "Closed")]).
Proof. reflexivity. Qed.

Example extract_unexpected :
  extractUpdatedCase (VObj [("unexpected", VStr "shape")]) = Ok null.
Proof. reflexivity. Qed.

(** Each of the four wrapper keys is probed. *)
Example extract_each_wrapper :
  map (fun key =>
         extractUpdatedCase
           (VObj [("ok", VPrim (PBool true));
                  (key, VObj [("id", VStr "c1")])]))
      ["case"; "data"; "result"; "payload"]
  = [Ok (VObj [("id", VStr "c1")]); Ok (VObj [("id", VStr "c1")]);
     Ok (VObj [("id", VStr "c1")]); Ok (VObj [("id", VStr "c1")])].
Proof. reflexivity. Qed.

(** The wrapper keys are probed in the order case, data, result, payload,
    whatever the order of the body's properties, and before the scan of the
    body's values. *)
Example extract_wrapper_order :
  extractUpdatedCase
    (VObj [("first", VObj [("_id", VStr "scanned")]);
           ("payload", VObj [("_id", VStr "p")]);
           ("result", VObj [("_id", VStr "r")]);
           ("data", VObj [("_id", VStr "d")])])
  = Ok (VObj [("_id", VStr "d")]).
Proof. reflexivity. Qed.

(** Without a usable wrapper the first object among the body's values that
    carries an identifier is taken. *)
Example extract_scanned :
  extractUpdatedCase
    (VObj [("count", VNum 2);
           ("data", VObj [("name", VStr "no id")]);
           ("updatedCase", VObj [("_id", VStr "c1")]);
           ("other", VObj [("_id", VStr "c2")])])
  = Ok (VObj [("_id", VStr "c1")]).
Proof. reflexivity. Qed.

(** *** Doctor lookup *)

Lemma findM_pure_in {A : Type} (f : A -> result bool) (g : A -> bool)
  (l : list A) :
  Forall (fun x => f x = Ok (g x)) l -> findM f l = Ok (find g l).
Proof.
  induction 1 as [|x xs Hx _ IH]; simpl; [reflexivity|].
  rewrite Hx. simpl. destruct (g x); [reflexivity | exact IH].
Qed.

Lemma doctorMatches_pure (ref : string) (d : value) :
  nullish d = false -> doctorMatches ref d = Ok (Spec.identifiedBy ref d).
Proof.
  intros Hn. unfold doctorMatches, Spec.identifiedBy.
  rewrite (getProp_under d "_id" Hn). cbn [bind].
  destruct (strictEq (Spec.under d "_id") (PStr ref)); [reflexivity|].
  rewrite (getProp_under d "id" Hn). reflexivity.
Qed.

Lemma find_first {A : Type} (g : A -> bool) (before after : list A) (d : A) :
  Forall (fun x => g x = false) before -> g d = true ->
  find g (before ++ d :: after) = Some d.
Proof.
  intros Hb Hd. induction Hb as [|x xs Hx _ IH]; simpl.
  - now rewrite Hd.
  - now rewrite Hx.
Qed.

Lemma find_absent {A : Type} (g : A -> bool) (l : list A) :
  Forall (fun x => g x = false) l -> find g l = None.
Proof.
  induction 1 as [|x xs Hx _ IH]; simpl; [reflexivity | now rewrite Hx].
Qed.

Lemma identified_is_truthy (ref : string) (d : value) :
  Spec.identifiedBy ref d = true -> truthy d = true.
Proof.
  destruct d as [p| |]; try reflexivity.
  unfold Spec.identifiedBy. simpl. discriminate.
Qed.

(** C7. The doctor lookup returns an embedded object as it is; for a
    (non-empty) string identifier it returns the first record of the
    collection whose [_id] or [id] is that string, or, when no record has
    it, the placeholder named "Doctor" with an empty specialization; for
    an absent reference ([undefined], [null], and any other falsy value,
    the empty string included) it returns [null].  The lookup is a function
    of the reference and the collection, which it only reads. *)
Theorem getAssignedDoctor_resolves (doctors : list value) (ref : value) :
  (forall ps, ref = VObj ps -> getAssignedDoctor doctors ref = Ok ref)
  /\ (forall s before d after,
        ref = VStr s -> s <> "" ->
        Forall (fun x => nullish x = false) doctors ->
        doctors = (before ++ d :: after)%list ->
        Forall (fun x => Spec.identifiedBy s x = false) before ->
        Spec.identifiedBy s d = true ->
        getAssignedDoctor doctors ref = Ok d)
  /\ (forall s,
        ref = VStr s -> s <> "" ->
        Forall (fun x => nullish x = false) doctors ->
        Forall (fun x => Spec.identifiedBy s x = false) doctors ->
        getAssignedDoctor doctors ref
        = Ok (VObj [("name", VStr "Doctor"); ("specialization", VStr "")]))
  /\ (truthy ref = false -> getAssignedDoctor doctors ref = Ok null).
Proof.
  assert (Hfind : forall s, Forall (fun x => nullish x = false) doctors ->
            findM (doctorMatches s) doctors
            = Ok (find (Spec.identifiedBy s) doctors)).
  { intros s Hall. apply findM_pure_in.
    eapply Forall_impl; [|exact Hall]. intros d Hd.
    now apply doctorMatches_pure. }
  split; [intros ps ->; reflexivity|].
  split; [|split].
  - intros s before d after -> Hne Hall Hsplit Hb Hd.
    unfold getAssignedDoctor. apply String.eqb_neq in Hne.
    simpl. rewrite Hne. simpl. rewrite (Hfind s Hall). cbn [bind].
    rewrite Hsplit, (find_first _ _ _ _ Hb Hd). simpl.
    unfold or_else. now rewrite (identified_is_truthy s d Hd).
  - intros s -> Hne Hall Hnone.
    unfold getAssignedDoctor. apply String.eqb_neq in Hne.
    simpl. rewrite Hne. simpl. rewrite (Hfind s Hall). cbn [bind].
    rewrite (find_absent _ _ Hnone). reflexivity.
  - intros Hf. unfold getAssignedDoctor. now rewrite Hf.
Qed.

Lemma getAssignedDoctor_resolves_witness :
  getAssignedDoctor sampleDoctors (VStr "d1")
  = Ok (VObj [("_id", VStr "d1"); ("name", VStr "Dr. A")])
  /\ getAssignedDoctor sampleDoctors (VStr "dX")
     = Ok (VObj [("name", VStr "Doctor"); ("specialization", VStr "")])
  /\ getAssignedDoctor sampleDoctors undefined = Ok null
  /\ getAssignedDoctor sampleDoctors (VObj [("name", VStr "Dr. B")])
     = Ok (VObj [("name", VStr "Dr. B")]).
Proof.
  split; [|split; [|split]].
  - apply (getAssignedDoctor_resolves sampleDoctors (VStr "d1"))
      with (s := "d1") (before := []) (after := []);
      try reflexivity; try discriminate; repeat constructor.
  - apply (getAssignedDoctor_resolves sampleDoctors (VStr "dX"))
      with (s := "dX");
      try reflexivity; try discriminate; repeat constructor.
  - apply (getAssignedDoctor_resolves sampleDoctors undefined).
    reflexivity.
  - apply (getAssignedDoctor_resolves sampleDoctors
             (VObj [("name", VStr "Dr. B")])) with (ps := [("name", VStr "Dr. B")]).
    reflexivity.
Defined.

(** *** Recent cases *)

Section RecentProps.
Variable parseDate : string -> option Z.

Let time := Compared.timeOf parseDate.
Let timed := Compared.timed parseDate.
Let notOlder := Compared.notOlder parseDate.
Let at_time := Compared.atTime parseDate.

Lemma byCreatedDesc_timed (a b : value) :
  timed a -> timed b ->
  byCreatedDesc parseDate a b = Ok (Some (time b - time a)%Z).
Proof.
  intros [ta Ha] [tb Hb]. unfold byCreatedDesc, time, Compared.timeOf.
  rewrite Ha, Hb. reflexivity.
Qed.

Lemma timed_not_undefined (c : value) : timed c -> is_undefined c = false.
Proof.
  intros [t Ht]. destruct c as [[| | | |]| |]; try reflexivity.
  discriminate Ht.
Qed.

Lemma timed_all_defined (l : list value) :
  Forall timed l ->
  filter (fun v => negb (is_undefined v)) l = l /\ filter is_undefined l = [].
Proof.
  induction 1 as [|c l Hc _ [IH1 IH2]]; simpl; [split; reflexivity|].
  rewrite (timed_not_undefined c Hc). simpl. rewrite IH1, IH2.
  split; reflexivity.
Qed.

Lemma insertM_sorted (x : value) (l : list value) :
  timed x -> Forall timed l -> StronglySorted notOlder l ->
  exists r,
    insertM (byCreatedDesc parseDate) x l = Ok r
    /\ Permutation r (x :: l)
    /\ StronglySorted notOlder r
    /\ forall t, filter (at_time t) r = filter (at_time t) (x :: l).
Proof.
  intros Hx Hl Hs. induction l as [|y ys IH].
  - exists [x]. repeat split; auto.
    constructor; constructor.
  - inversion Hl as [|? ? Hy Hys]; subst.
    inversion Hs as [|? ? Hs' Hyle]; subst.
    cbn [insertM]. rewrite (byCreatedDesc_timed x y Hx Hy). cbn [bind].
    unfold goes_after. destruct (Z.ltb_spec 0 (time y - time x)) as [Hlt|Hge].
    + destruct (IH Hys Hs') as (r & Hr & Hperm & Hsorted & Hfilter).
      rewrite Hr. cbn [bind]. exists (y :: r). split; [reflexivity|].
      split; [|split].
      * rewrite Hperm. apply perm_swap.
      * constructor; [exact Hsorted|].
        eapply Permutation_Forall; [symmetry; exact Hperm|].
        constructor; [|exact Hyle].
        unfold notOlder, Compared.notOlder. fold time. lia.
      * intros t. cbn [filter]. rewrite Hfilter. cbn [filter].
        unfold at_time, Compared.atTime. fold time.
        destruct (Z.eqb_spec (time y) t), (Z.eqb_spec (time x) t);
          try reflexivity. lia.
    + exists (x :: y :: ys). split; [reflexivity|].
      split; [reflexivity|]. split; [|reflexivity].
      constructor; [exact Hs|].
      constructor.
      * unfold notOlder, Compared.notOlder. fold time. lia.
      * eapply Forall_impl; [|exact Hyle].
        intros z. unfold notOlder, Compared.notOlder. fold time. lia.
Qed.

Lemma sortM_sorted (l : list value) :
  Forall timed l ->
  exists r,
    sortM (byCreatedDesc parseDate) l = Ok r
    /\ Permutation r l
    /\ StronglySorted notOlder r
    /\ forall t, filter (at_time t) r = filter (at_time t) l.
Proof.
  induction 1 as [|x xs Hx Hxs (r & Hr & Hperm & Hsorted & Hfilter)].
  - exists []. repeat split; auto. constructor.
  - cbn [sortM]. rewrite Hr. cbn [bind].
    destruct (insertM_sorted x r Hx) as (r' & Hr' & Hperm' & Hsorted' & Hfilter').
    { eapply Permutation_Forall; [symmetry; exact Hperm | exact Hxs]. }
    { exact Hsorted. }
    exists r'. split; [exact Hr'|]. split; [|split].
    + rewrite Hperm'. now constructor.
    + exact Hsorted'.
    + intros t. rewrite Hfilter'. cbn [filter]. now rewrite Hfilter.
Qed.

End RecentProps.

Lemma stamp_is_read (parseDate : string -> option Z) (c : value) (t : Z) :
  Spec.stamp parseDate c = Some t ->
  createdTime parseDate c = Ok (Some t).
Proof.
  destruct c as [p| |ps]; try discriminate. unfold Spec.stamp, createdTime.
  cbn [getProp]. destruct (lookup "createdAt" ps) as [[[| | |z|s]| |]|];
    try discriminate; cbn [bind dateValue].
  - destruct (Z.leb_spec (-8640000000000000) z);
      destruct (Z.leb_spec z 8640000000000000); try discriminate.
    intros [= <-].
    destruct (Z.leb_spec (Z.abs z) 8640000000000000); [reflexivity | lia].
  - now intros ->.
Qed.

Lemma stamped_is_timed (parseDate : string -> option Z) (c : value) :
  Spec.hasTime parseDate c ->
  Compared.timed parseDate c
  /\ Compared.timeOf parseDate c = Spec.timeOf parseDate c.
Proof.
  intros [t Ht]. pose proof (stamp_is_read parseDate c t Ht) as Hread.
  split; [now exists t|].
  unfold Compared.timeOf, Spec.timeOf. now rewrite Hread, Ht.
Qed.

Lemma StronglySorted_on {A : Type} (P : A -> Prop) (R R' : A -> A -> Prop)
  (l : list A) :
  Forall P l ->
  (forall a b, P a -> P b -> R a b -> R' a b) ->
  StronglySorted R l -> StronglySorted R' l.
Proof.
  intros HP Himp Hs. induction Hs as [|a l _ IH Ha]; [constructor|].
  inversion HP as [|? ? Pa Pl]; subst. constructor; [now apply IH|].
  rewrite Forall_forall in *. intros b Hb. apply Himp; auto.
Qed.

(** C6. On a case created at 1000, a case without [createdAt] and a case
    created at 3000, in that order, the derivation returns the three in
    that same order: the comparator yields [NaN] whenever the undated case
    is one of its arguments, [sort] reads that as 0, and the case created
    at 1000 stays in front of the more recent case created at 3000. *)
Theorem recentCases_undated_record_breaks_order
  (parseDate : string -> option Z) :
  recentCases parseDate undatedCases
  = Ok [VObj [("_id", VStr "a"); ("createdAt", VNum 1000)];
        VObj [("_id", VStr "b")];
        VObj [("_id", VStr "c"); ("createdAt", VNum 3000)]]
  /\ byCreatedDesc parseDate
       (VObj [("_id", VStr "a"); ("createdAt", VNum 1000)])
       (VObj [("_id", VStr "b")]) = Ok None
  /\ Spec.stamp parseDate
       (VObj [("_id", VStr "a"); ("createdAt", VNum 1000)]) = Some 1000%Z
  /\ Spec.stamp parseDate
       (VObj [("_id", VStr "c"); ("createdAt", VNum 3000)]) = Some 3000%Z
  /\ ~ Spec.notOlder parseDate
         (VObj [("_id", VStr "a"); ("createdAt", VNum 1000)])
         (VObj [("_id", VStr "c"); ("createdAt", VNum 3000)]).
Proof.
  repeat split. unfold Spec.notOlder. cbn. lia.
Qed.

(** With eight cases of which the second has no [createdAt], the six
    returned include the oldest case and leave out two more recent ones. *)
Example recentCases_undated_not_latest :
  recentCases noDates
    (caseAt 1000 :: VObj [("id", VNum 0)]
     :: map caseAt [3000; 4000; 5000; 6000; 7000; 8000]%Z)
  = Ok (caseAt 1000 :: VObj [("id", VNum 0)]
        :: map caseAt [8000; 7000; 6000; 5000]%Z).
Proof. reflexivity. Qed.

(** X26. For a collection of records that each carry a valid creation
    timestamp, the derivation returns the first six records (all of them
    when there are six or fewer, exactly six when there are seven or more)
    of the collection rearranged in descending order of creation time: what
    it returns, followed by the records it leaves out, is a permutation of
    the collection in which no record is followed by a more recent one, and
    in which records created at the same time keep the order they have in
    the collection. *)
Theorem recentCases_six_most_recent (parseDate : string -> option Z)
  (cs : list value) :
  Forall (Spec.hasTime parseDate) cs ->
  exists recent older,
    recentCases parseDate cs = Ok recent
    /\ length recent = Nat.min 6 (length cs)
    /\ (7 <= length cs -> length recent = 6)
    /\ (length cs <= 6 -> older = [])
    /\ Permutation (recent ++ older) cs
    /\ StronglySorted (Spec.notOlder parseDate) (recent ++ older)
    /\ forall t,
         filter (Spec.createdAtTime parseDate t) (recent ++ older)
         = filter (Spec.createdAtTime parseDate t) cs.
Proof.
  intros Hall.
  assert (Hseen : Forall (Compared.timed parseDate) cs).
  { eapply Forall_impl; [|exact Hall]. intros c Hc.
    apply (stamped_is_timed parseDate c Hc). }
  destruct (timed_all_defined parseDate cs Hseen) as [Hdef Hundef].
  destruct (sortM_sorted parseDate cs Hseen)
    as (r & Hr & Hperm & Hsorted & Hfilter).
  assert (Hstamped : Forall (Spec.hasTime parseDate) r).
  { eapply Permutation_Forall; [symmetry; exact Hperm | exact Hall]. }
  assert (Hsame : forall l t,
            Forall (Spec.hasTime parseDate) l ->
            filter (Spec.createdAtTime parseDate t) l
            = filter (Compared.atTime parseDate t) l).
  { intros l t Hl. apply filter_ext_in. intros c Hin.
    rewrite Forall_forall in Hl. unfold Spec.createdAtTime, Compared.atTime.
    now rewrite (proj2 (stamped_is_timed parseDate c (Hl c Hin))). }
  exists (firstn 6 r), (skipn 6 r).
  assert (Hlen : length r = length cs) by now apply Permutation_length.
  split.
  { unfold recentCases, arraySort. rewrite Hdef, Hundef, Hr. cbn [bind].
    now rewrite app_nil_r. }
  rewrite firstn_skipn, length_firstn, Hlen.
  split; [reflexivity|]. split; [lia|].
  split; [intros Hle; apply skipn_all2; lia|].
  split; [exact Hperm|]. split.
  - apply (StronglySorted_on (Spec.hasTime parseDate)
             (Compared.notOlder parseDate)); [exact Hstamped | | exact Hsorted].
    intros a b Ha Hb. unfold Compared.notOlder, Spec.notOlder.
    now rewrite (proj2 (stamped_is_timed parseDate a Ha)),
                (proj2 (stamped_is_timed parseDate b Hb)).
  - intros t. rewrite (Hsame r t Hstamped), (Hsame cs t Hall). apply Hfilter.
Qed.

Lemma recentCases_six_most_recent_witness :
  Forall (Spec.hasTime noDates) sevenCases
  /\ exists recent,
       recentCases noDates sevenCases = Ok recent /\ length recent = 6.
Proof.
  assert (H : Forall (Spec.hasTime noDates) sevenCases).
  { repeat constructor; eexists; reflexivity. }
  split; [exact H|].
  destruct (recentCases_six_most_recent noDates sevenCases H)
    as (recent & older & Hrun & Hlen & _).
  exists recent. split; [exact Hrun | exact Hlen].
Defined.

(** Seven cases created at times 1 to 7: the six latest, newest first. *)
Example recentCases_seven :
  recentCases noDates sevenCases = Ok (map caseAt [7; 6; 5; 4; 3; 2]%Z).
Proof. reflexivity. Qed.

(** Cases created at the same time stay in input order. *)
Example recentCases_ties :
  recentCases noDates
    [VObj [("_id", VStr "a"); ("createdAt", VNum 5)];
     VObj [("_id", VStr "b"); ("createdAt", VNum 9)];
     VObj [("_id", VStr "c"); ("createdAt", VNum 5)]]
  = Ok [VObj [("_id", VStr "b"); ("createdAt", VNum 9)];
        VObj [("_id", VStr "a"); ("createdAt", VNum 5)];
        VObj [("_id", VStr "c"); ("createdAt", VNum 5)]].
Proof. reflexivity. Qed.

(** *** Further evaluations of the statistics *)

(** Letter case and white space do not matter to the bucket. *)
Example stats_in_progress_spellings :
  stats [caseWithStatus "In Progress"; caseWithStatus "inprogress";
         caseWithStatus " IN PROGRESS "]
  = Ok (mkCount 3 0 0 3 0 0 0 0).
Proof. reflexivity. Qed.

(** A record without status, and one with an unlisted status, count as
    unknown. *)
Example stats_unknown :
  stats [VObj [("_id", VStr "c1")]; caseWithStatus "Archived"]
  = Ok (mkCount 2 0 0 0 0 0 0 2).
Proof. reflexivity. Qed.

(** The key [constructor] is answered by [Object.prototype]: the record is
    counted in the total and in no bucket. *)
Example stats_constructor_key :
  stats [caseWithStatus "Constructor"] = Ok (mkCount 1 0 0 0 0 0 0 0).
Proof. reflexivity. Qed.

End Props.

(* ===================================================================== *)
(** ** Further properties *)
(* ===================================================================== *)

Module Extra.
Import JS Dashboard Sample View Props.

(** *** Statistics: what each counter counts *)

Lemma withKey_cons (p : string -> bool) (x : value) (xs : list value)
  (key : string) :
  status_key x = Ok key ->
  Tally.withKey p (x :: xs) = Nat.b2n (p key) + Tally.withKey p xs.
Proof.
  intros Hk. unfold Tally.withKey. cbn [filter]. rewrite Hk.
  destruct (p key); reflexivity.
Qed.

Lemma stats_step_tally (c0 : Count) (x : value) (key : string) :
  status_key x = Ok key ->
  exists c1,
    stats_step c0 x = Ok c1
    /\ total c1 = total c0 + 1 + Nat.b2n (String.eqb key "total")
    /\ pending c1 = pending c0 + Nat.b2n (String.eqb key "pending")
    /\ assigned c1 = assigned c0 + Nat.b2n (String.eqb key "assigned")
    /\ inprogress c1 = inprogress c0 + Nat.b2n (String.eqb key "inprogress")
    /\ followup c1 = followup c0 + Nat.b2n (String.eqb key "followup")
    /\ closed c1 = closed c0 + Nat.b2n (String.eqb key "closed")
    /\ rejected c1 = rejected c0 + Nat.b2n (String.eqb key "rejected")
    /\ unknown c1
       = unknown c0
         + Nat.b2n (String.eqb key "unknown" || Tally.unlisted key).
Proof.
  intros Hk. unfold stats_step. rewrite Hk. cbn [bind].
  eexists. split; [reflexivity|].
  unfold bump, Tally.unlisted, count_slot.
  repeat match goal with
         | |- context [String.eqb key ?s] =>
             destruct (String.eqb_spec key s) as [->|?]
         end; simpl; repeat split; lia.
Qed.

Lemma stats_tally_from (cs : list value) :
  forall c0,
    Forall Tally.countable cs ->
    exists c,
      foldM stats_step cs c0 = Ok c
      /\ total c
         = total c0 + length cs
           + Tally.withKey (fun k => String.eqb k "total") cs
      /\ pending c
         = pending c0 + Tally.withKey (fun k => String.eqb k "pending") cs
      /\ assigned c
         = assigned c0 + Tally.withKey (fun k => String.eqb k "assigned") cs
      /\ inprogress c
         = inprogress c0
           + Tally.withKey (fun k => String.eqb k "inprogress") cs
      /\ followup c
         = followup c0 + Tally.withKey (fun k => String.eqb k "followup") cs
      /\ closed c
         = closed c0 + Tally.withKey (fun k => String.eqb k "closed") cs
      /\ rejected c
         = rejected c0 + Tally.withKey (fun k => String.eqb k "rejected") cs
      /\ unknown c
         = unknown c0
           + Tally.withKey
               (fun k => String.eqb k "unknown" || Tally.unlisted k) cs.
Proof.
  induction cs as [|x xs IH]; intros c0 Hall.
  - exists c0. cbn. repeat split; lia.
  - inversion Hall as [|? ? [key Hk] Hxs]; subst.
    destruct (stats_step_tally c0 x key Hk)
      as (c1 & Hstep & Ht & Hp & Ha & Hi & Hf & Hc & Hr & Hu).
    destruct (IH c1 Hxs)
      as (c & Hrun & Ht' & Hp' & Ha' & Hi' & Hf' & Hc' & Hr' & Hu').
    exists c. cbn [foldM]. rewrite Hstep. cbn [bind].
    split; [exact Hrun|].
    rewrite !(withKey_cons _ x xs key Hk). cbn [length].
    repeat split; lia.
Qed.

(** X1. For a collection of records whose status is falsy or a string, the
    snapshot is computed, each of the six status counters is the number of
    records with that normalized key, [unknown] is the number of records
    whose key is "unknown" or no property of the counter object, and
    [total] is the number of records plus the number of records whose key
    is "total". *)
Theorem stats_counts_by_key (cs : list value) :
  Forall Tally.countable cs ->
  exists c,
    stats cs = Ok c
    /\ total c
       = length cs + Tally.withKey (fun k => String.eqb k "total") cs
    /\ pending c = Tally.withKey (fun k => String.eqb k "pending") cs
    /\ assigned c = Tally.withKey (fun k => String.eqb k "assigned") cs
    /\ inprogress c = Tally.withKey (fun k => String.eqb k "inprogress") cs
    /\ followup c = Tally.withKey (fun k => String.eqb k "followup") cs
    /\ closed c = Tally.withKey (fun k => String.eqb k "closed") cs
    /\ rejected c = Tally.withKey (fun k => String.eqb k "rejected") cs
    /\ unknown c
       = Tally.withKey
           (fun k => String.eqb k "unknown" || Tally.unlisted k) cs.
Proof.
  intros Hall. destruct (stats_tally_from cs count0 Hall) as (c & Hrun & H).
  exists c. split; [exact Hrun|]. exact H.
Qed.

Lemma stats_counts_by_key_witness :
  Forall Tally.countable
    [caseWithStatus "In Progress"; caseWithStatus "Total"; case1]
  /\ exists c,
       stats [caseWithStatus "In Progress"; caseWithStatus "Total"; case1]
       = Ok c
       /\ total c = 4 /\ inprogress c = 1 /\ pending c = 1 /\ unknown c = 0.
Proof.
  assert (H : Forall Tally.countable
                [caseWithStatus "In Progress"; caseWithStatus "Total"; case1]).
  { repeat constructor; eexists; reflexivity. }
  split; [exact H|].
  destruct (stats_counts_by_key _ H)
    as (c & Hrun & Ht & Hp & _ & Hi & _ & _ & _ & Hu).
  exists c. repeat split; assumption.
Defined.

(** *** Statistics: balanced snapshots *)

Lemma withKey_none (p : string -> bool) (cs : list value) :
  Forall (fun c => forall key, status_key c = Ok key -> p key = false) cs ->
  Tally.withKey p cs = 0.
Proof.
  unfold Tally.withKey. induction 1 as [|x xs Hx _ IH]; cbn [filter];
    [reflexivity|].
  destruct (status_key x) as [key|]; [|exact IH].
  now rewrite (Hx key eq_refl).
Qed.

(** X2. When no record normalizes to one of the keys [total],
    [constructor], [__proto__], the snapshot's total is the number of
    records and its seven status counters add up to it. *)
Theorem stats_total_is_length_and_sum (cs : list value) :
  Forall (fun c => exists key,
            status_key c = Ok key /\ Tally.shadowed key = false) cs ->
  exists c,
    stats cs = Ok c /\ total c = length cs /\ bucket_sum c = length cs.
Proof.
  intros Hall.
  assert (Hcountable : Forall Tally.countable cs).
  { eapply Forall_impl; [|exact Hall]. intros c (key & Hk & _). now exists key. }
  assert (Hkeys : Forall (fun x => forall key, status_key x = Ok key ->
                    key <> "total" /\ key <> "constructor"
                    /\ key <> "__proto__") cs).
  { eapply Forall_impl; [|exact Hall]. intros c (key & Hk & Hs) key' Hk'.
    assert (key' = key) by congruence. subst key'.
    unfold Tally.shadowed in Hs.
    apply orb_false_iff in Hs. destruct Hs as [Hs Hp].
    apply orb_false_iff in Hs. destruct Hs as [Ht Hc].
    apply String.eqb_neq in Ht, Hc, Hp. auto. }
  destruct (stats_tally_from cs count0 Hcountable) as (c & Hrun & Ht & _).
  exists c. split; [exact Hrun|].
  assert (Hlen : total c = length cs).
  { rewrite Ht. rewrite withKey_none; [simpl; lia|].
    eapply Forall_impl; [|exact Hkeys]. intros x Hx key Hk.
    apply String.eqb_neq. apply (Hx key Hk). }
  split; [exact Hlen|].
  rewrite <- Hlen. apply (stats_balanced cs c Hkeys Hrun).
Qed.

Lemma stats_total_is_length_and_sum_witness :
  Forall (fun c => exists key,
            status_key c = Ok key /\ Tally.shadowed key = false) sampleCases
  /\ exists c,
       stats sampleCases = Ok c /\ total c = 2 /\ bucket_sum c = 2.
Proof.
  assert (H : Forall (fun c => exists key,
                 status_key c = Ok key /\ Tally.shadowed key = false)
                sampleCases).
  { repeat constructor; eexists; split; reflexivity. }
  split; [exact H|]. exact (stats_total_is_length_and_sum sampleCases H).
Defined.

(** *** Statistics: records that cannot be counted *)

Lemma status_key_throws (c : value) :
  nullish c = true
  \/ (exists st, getProp c "status" = Ok st /\ truthy st = true
                 /\ typeof st <> TString) ->
  status_key c = Throw TypeError.
Proof.
  intros [Hn | (st & Hst & Ht & Hty)]; unfold status_key.
  - destruct c as [[| | | |]| |]; try discriminate Hn; reflexivity.
  - rewrite Hst. cbn [bind]. unfold or_else. rewrite Ht.
    destruct st as [[| | | |]| |]; try reflexivity. now elim Hty.
Qed.

(** X3. A single [null] (or [undefined]) entry, or a single record whose
    status is truthy without being a string (a number, [true], an object),
    makes the whole computation of the statistics throw a [TypeError],
    wherever it stands in the collection. *)
Theorem stats_throws_on_uncountable (cs : list value) (c : value) :
  In c cs ->
  nullish c = true
  \/ (exists st, getProp c "status" = Ok st /\ truthy st = true
                 /\ typeof st <> TString) ->
  stats cs = Throw TypeError.
Proof.
  intros Hin Hbad. apply status_key_throws in Hbad.
  unfold stats. generalize count0.
  induction cs as [|x xs IH]; intros c0; [contradiction|].
  cbn [foldM].
  destruct (stats_step c0 x) as [c1|[]] eqn:Hstep; [|reflexivity].
  cbn [bind]. destruct Hin as [-> | Hin]; [|now apply IH].
  unfold stats_step in Hstep. rewrite Hbad in Hstep. discriminate.
Qed.

Lemma stats_throws_on_uncountable_witness :
  stats [case1; VObj [("status", VNum 3)]; case2] = Throw TypeError.
Proof.
  apply (stats_throws_on_uncountable _ (VObj [("status", VNum 3)])).
  - right. left. reflexivity.
  - right. exists (VNum 3). repeat split. discriminate.
Defined.

(** *** Statistics: the normalized key *)

Lemma lower_unit_idem (c : ascii) : lower_unit (lower_unit c) = lower_unit c.
Proof. destruct c as [[] [] [] [] [] [] [] []]; reflexivity. Qed.

Lemma is_space_lower_unit (c : ascii) : is_space (lower_unit c) = is_space c.
Proof. destruct c as [[] [] [] [] [] [] [] []]; reflexivity. Qed.

Lemma toLowerCase_idem (s : string) : toLowerCase (toLowerCase s) = toLowerCase s.
Proof.
  induction s as [|c s IH]; simpl; [reflexivity|].
  now rewrite lower_unit_idem, IH.
Qed.

Lemma toLowerCase_removeSpaces (s : string) :
  toLowerCase (removeSpaces s) = removeSpaces (toLowerCase s).
Proof.
  induction s as [|c s IH]; simpl; [reflexivity|].
  rewrite is_space_lower_unit. destruct (is_space c); simpl; now rewrite IH.
Qed.

Lemma removeSpaces_idem (s : string) :
  removeSpaces (removeSpaces s) = removeSpaces s.
Proof.
  induction s as [|c s IH]; simpl; [reflexivity|].
  destruct (is_space c) eqn:E; simpl; [exact IH|]. now rewrite E, IH.
Qed.

Lemma status_key_shape (c : value) (key : string) :
  status_key c = Ok key -> exists s, key = removeSpaces (toLowerCase s).
Proof.
  unfold status_key. destruct (getProp c "status") as [st|]; [|discriminate].
  cbn [bind].
  destruct (callToLowerCase (or_else st (VStr "unknown"))) as [l|] eqn:Hl;
    [|discriminate].
  cbn [bind]. intros [= <-].
  destruct (or_else st (VStr "unknown")) as [[| | | |s]| |];
    try discriminate Hl.
  injection Hl as <-. now exists s.
Qed.

(** X4. The normalized status key of a record contains no capital letter
    and no white space: lower-casing it or stripping white space from it
    changes nothing.  A record whose status is that key (when it is not
    empty) normalizes to the same key, and the key is never one of the
    property names of [Object.prototype] that contain a capital letter. *)
Theorem status_key_normal_form (c : value) (key : string) :
  status_key c = Ok key ->
  toLowerCase key = key
  /\ removeSpaces key = key
  /\ (key <> "" -> status_key (caseWithStatus key) = Ok key)
  /\ Forall (fun name => key <> name)
            ["hasOwnProperty"; "isPrototypeOf"; "propertyIsEnumerable";
             "toLocaleString"; "toString"; "valueOf"; "__defineGetter__";
             "__defineSetter__"; "__lookupGetter__"; "__lookupSetter__"].
Proof.
  intros Hk. destruct (status_key_shape c key Hk) as [s ->].
  assert (Hlow : toLowerCase (removeSpaces (toLowerCase s))
                 = removeSpaces (toLowerCase s)).
  { now rewrite toLowerCase_removeSpaces, toLowerCase_idem. }
  split; [exact Hlow|]. split; [apply removeSpaces_idem|]. split.
  - intros Hne. unfold status_key, caseWithStatus. simpl getProp.
    cbn [bind]. unfold or_else. simpl truthy.
    apply String.eqb_neq in Hne. rewrite Hne. simpl.
    now rewrite Hlow, removeSpaces_idem.
  - repeat constructor; intros Heq; rewrite Heq in Hlow; discriminate Hlow.
Qed.

Lemma status_key_normal_form_witness :
  status_key (caseWithStatus " In  PROGRESS ") = Ok "inprogress"
  /\ toLowerCase "inprogress" = "inprogress"
  /\ status_key (caseWithStatus "inprogress") = Ok "inprogress".
Proof.
  split; [reflexivity|].
  destruct (status_key_normal_form (caseWithStatus " In  PROGRESS ")
              "inprogress" eq_refl) as (Hl & _ & Hs & _).
  split; [exact Hl | apply Hs; discriminate].
Defined.

(** *** A record without status: shown as pending, counted as unknown *)

(** X5. The status selector of a row shows the record's status when it is
    truthy and "Pending" otherwise; a record whose status is falsy
    (missing, [null], empty) is nevertheless counted by the statistics in
    [unknown], not in [pending]. *)
Theorem falsy_status_shown_pending_counted_unknown
  (c st : value) (count : Count) :
  getProp c "status" = Ok st ->
  (truthy st = true -> shownStatus c = Ok st)
  /\ (truthy st = false ->
      shownStatus c = Ok (VStr "Pending")
      /\ stats_step count c = Ok (incr Unknown (incr Total count))).
Proof.
  intros Hst. unfold shownStatus, stats_step, status_key. rewrite Hst.
  cbn [bind]. unfold or_else. split; intros Ht; rewrite Ht; [reflexivity|].
  split; reflexivity.
Qed.

Lemma falsy_status_shown_pending_counted_unknown_witness :
  shownStatus (VObj [("_id", VStr "c9")]) = Ok (VStr "Pending")
  /\ stats_step count0 (VObj [("_id", VStr "c9")])
     = Ok (mkCount 1 0 0 0 0 0 0 1).
Proof.
  apply (falsy_status_shown_pending_counted_unknown
           (VObj [("_id", VStr "c9")]) undefined count0); reflexivity.
Defined.

(** *** Extraction, once more *)

(** X6. Whatever the extraction returns other than [null] carries an
    identifier (a truthy [_id] or [id]), and extracting from it returns it
    again: the extraction is idempotent. *)
Theorem extractUpdatedCase_idempotent (data : value) :
  exists r,
    extractUpdatedCase data = Ok r
    /\ extractUpdatedCase r = Ok r
    /\ (r <> null -> hasId r = Ok true).
Proof.
  exists (Spec.orNull (Spec.extraction data)).
  split; [apply extractUpdatedCase_eq|].
  destruct (Spec.extraction data) as [v|] eqn:He; cbn [Spec.orNull].
  - pose proof (extraction_carries data v He) as Hc.
    destruct (carries_is_object v Hc) as [ps ->].
    split.
    + rewrite extractUpdatedCase_eq. unfold Spec.extraction.
      now rewrite Hc.
    + intros _. rewrite hasId_carries by reflexivity. now rewrite Hc.
  - split; [reflexivity|]. intros H. now elim H.
Qed.

(** *** Doctor lookup, once more *)

(** X7. A truthy reference that is not a string (an embedded object, but
    also a number or an array) is returned as it is, whatever the doctor
    collection holds.  Over a collection of records the lookup always
    returns, its result is truthy exactly when the reference is, and for
    a non-empty string reference it is an object. *)
Theorem getAssignedDoctor_truthy_iff_reference
  (doctors : list value) (ref : value) :
  (truthy ref = true -> typeof ref <> TString ->
   getAssignedDoctor doctors ref = Ok ref)
  /\ (Forall (fun d => nullish d = false) doctors ->
      exists r,
        getAssignedDoctor doctors ref = Ok r
        /\ truthy r = truthy ref
        /\ (forall s, ref = VStr s -> s <> "" -> exists ps, r = VObj ps)).
Proof.
  split.
  - intros Ht Hty. unfold getAssignedDoctor. rewrite Ht. cbn [negb].
    destruct ref as [[| | | |]| |]; try reflexivity. now elim Hty.
  - intros Hall. unfold getAssignedDoctor.
    destruct (truthy ref) eqn:Ht; cbn [negb].
    + destruct ref as [[| | | |s]| |];
        try (eexists; split; [reflexivity|]; split; [exact Ht|];
             intros ? [=]).
      rewrite (findM_pure_in (doctorMatches s) (Spec.identifiedBy s)).
      2:{ eapply Forall_impl; [|exact Hall]. intros d Hd.
          now apply doctorMatches_pure. }
      cbn [bind].
      destruct (find (Spec.identifiedBy s) doctors) as [d|] eqn:Hf.
      * apply find_some in Hf. destruct Hf as [_ Hd].
        pose proof (identified_is_truthy s d Hd) as Htd.
        unfold or_else. cbn [found_or_undefined]. rewrite Htd.
        exists d. split; [reflexivity|]. split; [exact Htd|].
        intros _ _ _. unfold Spec.identifiedBy in Hd.
        destruct d as [p| |ps]; [discriminate Hd | discriminate Hd | eauto].
      * exists placeholderDoctor. split; [reflexivity|].
        split; [reflexivity|].
        intros _ _ _. unfold placeholderDoctor. eauto.
    + exists null. split; [reflexivity|]. split; [reflexivity|].
      intros s -> Hne. apply String.eqb_neq in Hne.
      simpl in Ht. rewrite Hne in Ht. discriminate.
Qed.

Lemma getAssignedDoctor_truthy_iff_reference_witness :
  getAssignedDoctor [null] (VNum 7) = Ok (VNum 7)
  /\ exists r,
       getAssignedDoctor sampleDoctors (VStr "d1") = Ok r
       /\ truthy r = true.
Proof.
  split.
  - apply (getAssignedDoctor_truthy_iff_reference [null] (VNum 7));
      [reflexivity | discriminate].
  - destruct (getAssignedDoctor_truthy_iff_reference sampleDoctors
                (VStr "d1")) as [_ H].
    destruct H as (r & Hr & Ht & _); [repeat constructor|].
    exists r. split; [exact Hr | exact Ht].
Defined.

(** X8. The lookup by string stops at the first matching record: entries
    after it are not read, so a [null] entry there is harmless, whereas a
    [null] entry met before any match makes the lookup throw. *)
Theorem getAssignedDoctor_stops_at_first_match
  (s : string) (before after : list value) (d : value) :
  s <> "" ->
  Forall (fun x => nullish x = false /\ Spec.identifiedBy s x = false)
         before ->
  (Spec.identifiedBy s d = true ->
   getAssignedDoctor (before ++ d :: after)%list (VStr s) = Ok d)
  /\ (nullish d = true ->
      getAssignedDoctor (before ++ d :: after)%list (VStr s)
      = Throw TypeError).
Proof.
  intros Hne Hb. apply String.eqb_neq in Hne.
  assert (Hskip : findM (doctorMatches s) (before ++ d :: after)%list
                  = findM (doctorMatches s) (d :: after)).
  { induction Hb as [|x xs [Hn Hi] _ IH]; [reflexivity|].
    cbn [app findM]. rewrite (doctorMatches_pure s x Hn), Hi. exact IH. }
  assert (Hstr : forall ds,
            getAssignedDoctor ds (VStr s)
            = bind (findM (doctorMatches s) ds)
                   (fun f => Ok (or_else (found_or_undefined f)
                                         placeholderDoctor))).
  { intros ds. unfold getAssignedDoctor, VStr. cbn [truthy truthy_prim].
    now rewrite Hne. }
  rewrite Hstr, Hskip. cbn [findM]. split.
  - intros Hd.
    rewrite (doctorMatches_pure s d)
      by (apply truthy_not_nullish, (identified_is_truthy s d Hd)).
    rewrite Hd. cbn [bind found_or_undefined]. unfold or_else.
    now rewrite (identified_is_truthy s d Hd).
  - intros Hn. destruct d as [[| | | |]| |]; try discriminate Hn; reflexivity.
Qed.

Lemma getAssignedDoctor_stops_at_first_match_witness :
  getAssignedDoctor
    ([VObj [("_id", VStr "d0")]]
     ++ VObj [("id", VStr "d1")] :: [null])%list (VStr "d1")
  = Ok (VObj [("id", VStr "d1")])
  /\ getAssignedDoctor
       ([VObj [("_id", VStr "d0")]] ++ null :: sampleDoctors)%list
       (VStr "d1")
     = Throw TypeError.
Proof.
  split.
  - apply (getAssignedDoctor_stops_at_first_match "d1"
             [VObj [("_id", VStr "d0")]] [null] (VObj [("id", VStr "d1")]));
      [discriminate | repeat constructor | reflexivity].
  - apply (getAssignedDoctor_stops_at_first_match "d1"
             [VObj [("_id", VStr "d0")]] sampleDoctors null);
      [discriminate | repeat constructor | reflexivity].
Defined.

(** *** Merging the server's record *)

Lemma lookup_absent (k : string) (qs : props) :
  ~ In k (map fst qs) -> lookup k qs = None.
Proof.
  induction qs as [|[k0 v0] rest IH]; simpl; [reflexivity|].
  intros Hn. destruct (String.eqb_spec k0 k) as [->|Hk].
  - elim Hn. now left.
  - apply IH. intros Hin. apply Hn. now right.
Qed.

(** Reading a property of [{ ...a, ...b }]: [b] wins. *)
Lemma lookup_assign (k : string) (qs : props) :
  NoDup (map fst qs) ->
  forall ps,
    lookup k (assign ps qs)
    = match lookup k qs with
      | Some v => Some v
      | None => lookup k ps
      end.
Proof.
  unfold assign. induction qs as [|[k0 v0] rest IH]; intros Hnd ps;
    [reflexivity|].
  simpl in Hnd. inversion Hnd as [|? ? Hk0 Hrest]; subst.
  cbn [fold_left fst snd lookup]. rewrite (IH Hrest).
  destruct (String.eqb_spec k0 k) as [->|Hk].
  - rewrite (lookup_absent k rest Hk0). apply lookup_setProp_same.
  - destruct (lookup k rest); [reflexivity|].
    now apply lookup_setProp_other; congruence.
Qed.

(** X9. Merging the server's record [updated] into a record [c] leaves [c]
    untouched when the string forms of the two identifiers differ;
    otherwise it yields an object in which every property of [updated] has
    the server's value and every other property of [c] has kept its own. *)
Theorem mergeUpdated_server_wins (id c : value) (qs : props) :
  nullish c = false ->
  NoDup (map fst qs) ->
  exists cid c',
    getProp c "_id" = Ok cid
    /\ mergeUpdated id (VObj qs) c = Ok c'
    /\ (toString cid <> toString id -> c' = c)
    /\ (toString cid = toString id ->
        exists ps',
          c' = VObj ps'
          /\ forall k,
               lookup k ps'
               = match lookup k qs with
                 | Some v => Some v
                 | None => lookup k (spread c)
                 end).
Proof.
  intros Hn Hnd. unfold mergeUpdated.
  rewrite (getProp_under c "_id" Hn). cbn [bind].
  eexists _, _. split; [reflexivity|]. split; [reflexivity|].
  destruct (String.eqb_spec (toString (Spec.under c "_id")) (toString id))
    as [Heq | Hneq].
  - split; [intros H; now elim H|]. intros _.
    eexists. split; [reflexivity|]. intros k.
    apply lookup_assign. exact Hnd.
  - split; [reflexivity|]. intros H. now elim Hneq.
Qed.

Lemma mergeUpdated_server_wins_witness :
  exists c',
    mergeUpdated (VStr "5")
      (VObj [("_id", VStr "5"); ("status", VStr "Closed")])
      (VObj [("_id", VNum 5); ("status", VStr "Pending");
             ("title", VStr "Hip")])
    = Ok c'
    /\ getProp c' "status" = Ok (VStr "Closed")
    /\ getProp c' "title" = Ok (VStr "Hip").
Proof.
  destruct (mergeUpdated_server_wins (VStr "5")
              (VObj [("_id", VNum 5); ("status", VStr "Pending");
                     ("title", VStr "Hip")])
              [("_id", VStr "5"); ("status", VStr "Closed")])
    as (cid & c' & Hcid & Hm & _ & Hsame).
  - reflexivity.
  - repeat constructor; simpl; intuition discriminate.
  - exists c'. split; [exact Hm|].
    injection Hcid as <-.
    destruct (Hsame eq_refl) as (ps' & -> & Hlook).
    split; simpl; rewrite Hlook; reflexivity.
Defined.

(** *** A successful update *)

Lemma hasId_true_id (v : value) :
  hasId v = Ok true -> exists id, idOf v = Ok id /\ truthy id = true.
Proof.
  unfold hasId. destruct (idOf v) as [id|]; cbn [bind]; [|discriminate].
  intros [= H]. eauto.
Qed.

(** The [try] body when the response holds a record. *)
Lemma reconcile_extracted (selected data updated : value) (s : State) :
  Spec.extraction data = Some updated ->
  Forall (fun c => nullish c = false) (cases s) ->
  exists id cs2,
    idOf updated = Ok id /\ truthy id = true
    /\ mapM (mergeUpdated id updated) (cases s) = Ok cs2
    /\ reconcile selected data s
       = Ok (Done
               (mkState cs2
                  (if truthy selected
                      && String.eqb (toString (Spec.under selected "_id"))
                                    (toString id)
                   then VObj (assign (spread (selectedCase s))
                                     (spread updated))
                   else selectedCase s)
                  (updatingCaseId s) (notices s))).
Proof.
  intros He Hall.
  pose proof (extraction_carries data updated He) as Hc.
  destruct (carries_is_object updated Hc) as [qs Hqs].
  assert (Hid : hasId updated = Ok true).
  { rewrite hasId_carries by (rewrite Hqs; reflexivity). now rewrite Hc. }
  destruct (hasId_true_id updated Hid) as (id & Hidof & Htid).
  destruct (mapM_total (mergeUpdated id updated) (cases s)) as [cs2 Hcs2].
  { eapply Forall_impl; [|exact Hall]. intros c Hn.
    now apply mergeUpdated_total. }
  exists id, cs2. repeat split; try assumption.
  unfold reconcile. rewrite extractUpdatedCase_eq, He.
  cbn [bind Spec.orNull].
  assert (Hco : coalesce updated data = updated).
  { rewrite Hqs. reflexivity. }
  rewrite Hco, guarded_hasId, Hc. cbn [bind]. rewrite Hidof. cbn [bind].
  unfold setCases. rewrite Hcs2. cbn [bind].
  destruct (truthy selected) eqn:Hs; cbn [andb].
  - rewrite (getProp_under selected "_id" (truthy_not_nullish _ Hs)).
    cbn [bind].
    destruct (String.eqb _ _); reflexivity.
  - reflexivity.
Qed.

Lemma Forall2_length_eq {A B : Type} (R : A -> B -> Prop) (l : list A)
  (l' : list B) : Forall2 R l l' -> length l' = length l.
Proof. intros H. symmetry. eapply Forall2_length, H. Qed.

(** X10. When the PUT succeeds and its response holds a record, the
    handler finishes without any notice (no warning, no error, no alert),
    with the marker reset, and with the collection obtained by merging the
    record into the optimistically rewritten collection: same length,
    records whose identifier (as a string) differs from the record's are
    the optimistic ones.  The selected case is merged too when the details
    modal was open on a case with that identifier, and is untouched
    otherwise. *)
Theorem handleUpdateStatus_success_merges_record
  (caseId : prim) (newStatus data updated : value) (s : State) :
  truthy_prim caseId = true ->
  Forall (fun c => nullish c = false) (cases s) ->
  Spec.extraction data = Some updated ->
  exists cs id cs2,
    mapM (optimistic caseId newStatus) (cases s) = Ok cs
    /\ idOf updated = Ok id /\ truthy id = true
    /\ mapM (mergeUpdated id updated) cs = Ok cs2
    /\ length cs2 = length (cases s)
    /\ Forall2
         (fun c' c2 =>
            forall cid, getProp c' "_id" = Ok cid ->
                        toString cid <> toString id -> c2 = c')
         cs cs2
    /\ run (handleUpdateStatus caseId newStatus s) [Some data]
       = Finished
           (mkState cs2
              (if truthy (selectedCase s)
                  && String.eqb
                       (toString (Spec.under (selectedCase s) "_id"))
                       (toString id)
               then VObj (assign (spread (selectedCase s)) (spread updated))
               else selectedCase s)
              PNull (notices s)).
Proof.
  intros Ht Hall He.
  destruct (mapM_optimistic_total caseId newStatus (cases s) Hall)
    as [cs Hcs].
  pose proof (mapM_optimistic_not_nullish _ _ _ _ Hcs) as Hcsn.
  destruct (reconcile_extracted (selectedCase s) data updated
              (mkState cs (selectedCase s) caseId (notices s)) He Hcsn)
    as (id & cs2 & Hid & Htid & Hcs2 & Hrec).
  cbn [cases selectedCase updatingCaseId notices] in Hcs2, Hrec.
  exists cs, id, cs2.
  split; [exact Hcs|]. split; [exact Hid|]. split; [exact Htid|].
  split; [exact Hcs2|].
  pose proof (mapM_Forall2 _ _ _ Hcs) as H1.
  pose proof (mapM_Forall2 _ _ _ Hcs2) as H2.
  split.
  { rewrite (Forall2_length_eq _ _ _ H2). apply (Forall2_length_eq _ _ _ H1). }
  split.
  { eapply Forall2_impl; [|exact H2]. intros c' c2 Hm cid Hcid Hne.
    unfold mergeUpdated in Hm. rewrite Hcid in Hm. cbn [bind] in Hm.
    apply String.eqb_neq in Hne. rewrite Hne in Hm. now injection Hm. }
  rewrite (handleUpdateStatus_issued _ _ _ cs Ht Hcs). cbn [run].
  rewrite Hrec. reflexivity.
Qed.

Lemma handleUpdateStatus_success_merges_record_witness :
  exists s2,
    run (handleUpdateStatus (PStr "c1") (VStr "Closed") sampleState)
        [Some (VObj [("case", VObj [("_id", VStr "c1");
                                    ("status", VStr "Follow Up")])])]
    = Finished s2
    /\ length (cases s2) = 2
    /\ updatingCaseId s2 = PNull
    /\ notices s2 = [].
Proof.
  destruct (handleUpdateStatus_success_merges_record
              (PStr "c1") (VStr "Closed")
              (VObj [("case", VObj [("_id", VStr "c1");
                                    ("status", VStr "Follow Up")])])
              (VObj [("_id", VStr "c1"); ("status", VStr "Follow Up")])
              sampleState)
    as (cs & id & cs2 & _ & _ & _ & _ & Hlen & _ & Hrun);
    [reflexivity | repeat constructor | reflexivity |].
  eexists. split; [exact Hrun|]. repeat split. exact Hlen.
Defined.

(** X11. End to end, the status the server sends back wins over the
    optimistic one: after a successful PUT whose response holds a record
    with a [status], every case with that record's identifier shows the
    server's status, and every other case is as the optimistic rewrite
    left it. *)
Theorem handleUpdateStatus_server_status_wins
  (caseId : prim) (newStatus data st : value) (qs : props) (s : State) :
  truthy_prim caseId = true ->
  Forall (fun c => nullish c = false) (cases s) ->
  Spec.extraction data = Some (VObj qs) ->
  NoDup (map fst qs) ->
  lookup "status" qs = Some st ->
  exists id s2,
    idOf (VObj qs) = Ok id
    /\ run (handleUpdateStatus caseId newStatus s) [Some data] = Finished s2
    /\ Forall2
         (fun c c2 =>
            forall cid, getProp c "_id" = Ok cid ->
              (toString cid = toString id ->
               getProp c2 "status" = Ok st)
              /\ (toString cid <> toString id ->
                  optimistic caseId newStatus c = Ok c2))
         (cases s) (cases s2).
Proof.
  intros Ht Hall He Hnd Hst.
  destruct (mapM_optimistic_total caseId newStatus (cases s) Hall)
    as [cs Hcs].
  pose proof (mapM_optimistic_not_nullish _ _ _ _ Hcs) as Hcsn.
  destruct (reconcile_extracted (selectedCase s) data (VObj qs)
              (mkState cs (selectedCase s) caseId (notices s)) He Hcsn)
    as (id & cs2 & Hid & _ & Hcs2 & Hrec).
  cbn [cases selectedCase updatingCaseId notices] in Hcs2, Hrec.
  assert (Hrun : exists s2,
            run (handleUpdateStatus caseId newStatus s) [Some data]
            = Finished s2 /\ cases s2 = cs2).
  { rewrite (handleUpdateStatus_issued _ _ _ cs Ht Hcs). cbn [run].
    rewrite Hrec. eexists. split; reflexivity. }
  destruct Hrun as (s2 & Hrun & Hs2).
  exists id, s2. split; [exact Hid|]. split; [exact Hrun|].
  rewrite Hs2.
  apply mapM_Forall2 in Hcs. apply mapM_Forall2 in Hcs2.
  clear Hrun Hall Hrec Hs2 Hcsn. revert cs2 Hcs2.
  induction Hcs as [|c c' l l' Hopt _ IH]; intros cs2 Hcs2;
    inversion Hcs2 as [|? c2 ? l2 Hm Hrest]; subst; constructor.
  - intros cid Hcid.
    assert (Hcid' : getProp c' "_id" = Ok cid).
    { unfold optimistic in Hopt. rewrite Hcid in Hopt. cbn [bind] in Hopt.
      injection Hopt as <-.
      destruct (strictEq cid caseId) eqn:Heq; [|exact Hcid].
      destruct (matching_record_is_object caseId c cid Ht Hcid Heq)
        as [ps ->].
      cbn in Hcid |- *.
      rewrite lookup_setProp_other by discriminate. exact Hcid. }
    unfold mergeUpdated in Hm. rewrite Hcid' in Hm. cbn [bind] in Hm.
    split.
    + intros Heq. apply String.eqb_eq in Heq. rewrite Heq in Hm.
      injection Hm as <-. cbn [getProp].
      rewrite (lookup_assign "status" qs Hnd), Hst. reflexivity.
    + intros Hne. apply String.eqb_neq in Hne. rewrite Hne in Hm.
      injection Hm as <-. exact Hopt.
  - apply IH. exact Hrest.
Qed.

Lemma handleUpdateStatus_server_status_wins_witness :
  exists s2,
    run (handleUpdateStatus (PStr "c1") (VStr "Closed") sampleState)
        [Some (VObj [("_id", VStr "c1"); ("status", VStr "Follow Up")])]
    = Finished s2
    /\ Forall2
         (fun c c2 =>
            forall cid, getProp c "_id" = Ok cid ->
              (toString cid = "c1" ->
               getProp c2 "status" = Ok (VStr "Follow Up"))
              /\ (toString cid <> "c1" ->
                  optimistic (PStr "c1") (VStr "Closed") c = Ok c2))
         sampleCases (cases s2).
Proof.
  destruct (handleUpdateStatus_server_status_wins
              (PStr "c1") (VStr "Closed")
              (VObj [("_id", VStr "c1"); ("status", VStr "Follow Up")])
              (VStr "Follow Up")
              [("_id", VStr "c1"); ("status", VStr "Follow Up")]
              sampleState)
    as (id & s2 & Hid & Hrun & Hall);
    [reflexivity | repeat constructor | reflexivity
     | repeat constructor; simpl; intuition discriminate | reflexivity |].
  injection Hid as <-. exists s2. split; [exact Hrun | exact Hall].
Defined.

(** *** Notices *)

(** X12. The handler alerts the operator exactly when the PUT fails.  After
    a successful PUT it adds no notice when the response holds a record and
    one console warning when it does not; after a failed PUT it adds a
    console error, a second one when the reload fails too, and then the
    alert. *)
Theorem handleUpdateStatus_alerts_only_on_failure
  (caseId : prim) (newStatus : value) (s : State) :
  truthy_prim caseId = true ->
  Forall (fun c => nullish c = false) (cases s) ->
  (forall data,
     exists s2,
       run (handleUpdateStatus caseId newStatus s) [Some data] = Finished s2
       /\ notices s2
          = (notices s
             ++ match Spec.extraction data with
                | Some _ => []
                | None => [ConsoleWarn]
                end)%list)
  /\ (forall reload,
        exists s2,
          run (handleUpdateStatus caseId newStatus s) [None; reload]
          = Finished s2
          /\ notices s2
             = (notices s
                ++ ConsoleError
                   :: match reload with
                      | Some _ => []
                      | None => [ConsoleError]
                      end ++ [Alert])%list).
Proof.
  intros Ht Hall.
  destruct (mapM_optimistic_total caseId newStatus (cases s) Hall)
    as [cs Hcs].
  pose proof (mapM_optimistic_not_nullish _ _ _ _ Hcs) as Hcsn.
  rewrite (handleUpdateStatus_issued _ _ _ cs Ht Hcs).
  split.
  - intros data. cbn [run].
    destruct (Spec.extraction data) as [updated|] eqn:He.
    + destruct (reconcile_extracted (selectedCase s) data updated
                  (mkState cs (selectedCase s) caseId (notices s)) He Hcsn)
        as (id & cs2 & _ & _ & _ & Hrec).
      rewrite Hrec. eexists. split; [reflexivity|].
      cbn. now rewrite app_nil_r.
    + rewrite (reconcile_nothing_extracted _ _ _ He).
      eexists. split; reflexivity.
  - intros [data|]; eexists; (split; [reflexivity|]); cbn;
      now rewrite <- !app_assoc.
Qed.

Lemma handleUpdateStatus_alerts_only_on_failure_witness :
  exists s2,
    run (handleUpdateStatus (PStr "c1") (VStr "Closed") sampleState)
        [None; None]
    = Finished s2
    /\ notices s2 = [ConsoleError; ConsoleError; Alert].
Proof.
  destruct (handleUpdateStatus_alerts_only_on_failure
              (PStr "c1") (VStr "Closed") sampleState eq_refl) as [_ H];
    [repeat constructor|].
  exact (H None).
Defined.

(** *** Two updates in flight *)

(** X13. There is one in-flight marker for all cases.  When a second
    update is started while a first one is waiting for its PUT, the marker
    names the second case only; and when the first update then finishes,
    whether its PUT succeeded or failed, it resets the marker although the
    second update is still waiting. *)
Theorem overlapping_updates_share_marker
  (a b : prim) (n1 n2 : value) (s : State) :
  truthy_prim a = true ->
  truthy_prim b = true ->
  Forall (fun c => nullish c = false) (cases s) ->
  exists s1 k1 s2 k2,
    handleUpdateStatus a n1 s = Await s1 (PutStatus a n1) k1
    /\ handleUpdateStatus b n2 s1 = Await s2 (PutStatus b n2) k2
    /\ updatingCaseId s1 = a
    /\ updatingCaseId s2 = b
    /\ (forall data,
          exists s3,
            resume (handleUpdateStatus a n1 s) s2 (Some data) = Done s3
            /\ updatingCaseId s3 = PNull)
    /\ (forall reload,
          exists s3,
            run (resume (handleUpdateStatus a n1 s) s2 None) [reload]
            = Finished s3
            /\ updatingCaseId s3 = PNull).
Proof.
  intros Ha Hb Hall.
  destruct (mapM_optimistic_total a n1 (cases s) Hall) as [cs1 Hcs1].
  pose proof (mapM_optimistic_not_nullish _ _ _ _ Hcs1) as Hn1.
  set (s1 := mkState cs1 (selectedCase s) a (notices s)).
  destruct (mapM_optimistic_total b n2 (cases s1) Hn1) as [cs2 Hcs2].
  pose proof (mapM_optimistic_not_nullish _ _ _ _ Hcs2) as Hn2.
  set (s2 := mkState cs2 (selectedCase s1) b (notices s1)).
  exists s1. eexists. exists s2. eexists.
  split; [exact (handleUpdateStatus_issued _ _ _ cs1 Ha Hcs1)|].
  split; [exact (handleUpdateStatus_issued _ _ _ cs2 Hb Hcs2)|].
  rewrite (handleUpdateStatus_issued _ _ _ cs1 Ha Hcs1).
  split; [reflexivity|]. split; [reflexivity|]. split.
  - intros data. cbn [resume].
    destruct (reconcile_done (selectedCase s) data s2 Hn2) as [s' Hs'].
    rewrite Hs'. cbn [andFinally]. eexists. split; reflexivity.
  - intros [data|]; cbn; eexists; split; reflexivity.
Qed.

Lemma overlapping_updates_share_marker_witness :
  exists s1 k1 s2 k2,
    handleUpdateStatus (PStr "c1") (VStr "Closed") sampleState
    = Await s1 (PutStatus (PStr "c1") (VStr "Closed")) k1
    /\ handleUpdateStatus (PStr "c2") (VStr "Pending") s1
       = Await s2 (PutStatus (PStr "c2") (VStr "Pending")) k2
    /\ updatingCaseId s2 = PStr "c2"
    /\ exists s3,
         resume (handleUpdateStatus (PStr "c1") (VStr "Closed") sampleState)
                s2 (Some null)
         = Done s3
         /\ updatingCaseId s3 = PNull.
Proof.
  destruct (overlapping_updates_share_marker
              (PStr "c1") (PStr "c2") (VStr "Closed") (VStr "Pending")
              sampleState eq_refl eq_refl)
    as (s1 & k1 & s2 & k2 & H1 & H2 & _ & Hb & Hdone & _);
    [repeat constructor|].
  exists s1, k1, s2, k2. repeat split; try assumption.
  exact (Hdone null).
Defined.

(** *** The selector of the details modal *)

(** X14. Changing the status in the details modal writes the new status
    into the selected case whatever happens to the update.  With an absent
    identifier nothing is sent and the selected case is changed all the
    same.  When the PUT fails, the collection is reloaded (or keeps the
    optimistic rewrite when the reload fails too) and the operator is
    alerted, but the selected case still shows the new status. *)
Theorem modalOnChange_keeps_new_status
  (caseId : prim) (newStatus : value) (s : State) :
  (truthy_prim caseId = false ->
   modalOnChange caseId newStatus s
   = Done (mkState (cases s)
                   (VObj (setProp "status" newStatus
                                  (spread (selectedCase s))))
                   (updatingCaseId s) (notices s)))
  /\ (truthy_prim caseId = true ->
      Forall (fun c => nullish c = false) (cases s) ->
      exists cs,
        mapM (optimistic caseId newStatus) (cases s) = Ok cs
        /\ forall reload,
             exists s2,
               run (modalOnChange caseId newStatus s) [None; reload]
               = Finished s2
               /\ selectedCase s2
                  = VObj (setProp "status" newStatus
                                  (spread (selectedCase s)))
               /\ cases s2
                  = match reload with
                    | Some data => arrayOrEmpty data
                    | None => cs
                    end
               /\ updatingCaseId s2 = PNull
               /\ In Alert (notices s2)).
Proof.
  unfold modalOnChange. split.
  - intros Hf. rewrite (handleUpdateStatus_absent _ _ _ Hf). reflexivity.
  - intros Ht Hall.
    destruct (mapM_optimistic_total caseId newStatus (cases s) Hall)
      as [cs Hcs].
    exists cs. split; [exact Hcs|].
    rewrite (handleUpdateStatus_issued _ _ _ cs Ht Hcs).
    intros [data|]; eexists; (split; [reflexivity|]); cbn;
      repeat split; apply in_or_app; right; left; reflexivity.
Qed.

Lemma modalOnChange_keeps_new_status_witness :
  exists s2,
    run (modalOnChange (PStr "c1") (VStr "Closed")
           (mkState sampleCases case1 PNull []))
        [None; Some (VArr sampleCases)]
    = Finished s2
    /\ getProp (selectedCase s2) "status" = Ok (VStr "Closed")
    /\ cases s2 = sampleCases.
Proof.
  destruct (modalOnChange_keeps_new_status (PStr "c1") (VStr "Closed")
              (mkState sampleCases case1 PNull [])) as [_ H].
  destruct (H eq_refl) as (cs & _ & Hrun); [repeat constructor|].
  destruct (Hrun (Some (VArr sampleCases)))
    as (s2 & Hs2 & Hsel & Hcases & _).
  exists s2. split; [exact Hs2|]. split; [|exact Hcases].
  rewrite Hsel. reflexivity.
Defined.

(** *** Recent cases, once more *)

Lemma Forall_firstn {A : Type} (P : A -> Prop) (n : nat) (l : list A) :
  Forall P l -> Forall P (firstn n l).
Proof.
  intros H. revert n. induction H as [|x l Hx _ IH]; intros [|n]; simpl;
    constructor; auto.
Qed.

Lemma StronglySorted_firstn {A : Type} (R : A -> A -> Prop) (n : nat)
  (l : list A) : StronglySorted R l -> StronglySorted R (firstn n l).
Proof.
  intros H. revert n. induction H as [|x l _ IH Hx]; intros [|n]; simpl;
    constructor; auto using Forall_firstn.
Qed.

Lemma Forall2_firstn {A B : Type} (R : A -> B -> Prop) (n : nat)
  (l : list A) (l' : list B) :
  Forall2 R l l' -> Forall2 R (firstn n l) (firstn n l').
Proof.
  intros H. revert n. induction H as [|x y l l' Hxy _ IH]; intros [|n]; simpl;
    constructor; auto.
Qed.

Lemma Forall2_mapM {A B : Type} (f : A -> result B) (l : list A)
  (l' : list B) :
  Forall2 (fun x y => f x = Ok y) l l' -> mapM f l = Ok l'.
Proof.
  induction 1 as [|x y l l' Hxy _ IH]; simpl; [reflexivity|].
  now rewrite Hxy, IH.
Qed.

Section RecentMore.
Variable parseDate : string -> option Z.

Lemma createdTime_total (c : value) :
  nullish c = false -> exists t, createdTime parseDate c = Ok t.
Proof.
  intros Hn. unfold createdTime. rewrite (getProp_under c "createdAt" Hn).
  cbn [bind]. eauto.
Qed.

Lemma insertM_permutes (x : value) (l : list value) :
  nullish x = false -> Forall (fun c => nullish c = false) l ->
  exists r,
    insertM (byCreatedDesc parseDate) x l = Ok r /\ Permutation r (x :: l).
Proof.
  intros Hx Hl. induction Hl as [|y ys Hy _ [r [Hr Hp]]]; cbn [insertM].
  - eauto.
  - unfold byCreatedDesc at 1.
    destruct (createdTime_total y Hy) as [ty ->].
    destruct (createdTime_total x Hx) as [tx ->]. cbn [bind].
    destruct (goes_after _).
    + rewrite Hr. cbn [bind]. eexists. split; [reflexivity|].
      rewrite Hp. apply perm_swap.
    + eauto.
Qed.

Lemma sortM_permutes (l : list value) :
  Forall (fun c => nullish c = false) l ->
  exists r, sortM (byCreatedDesc parseDate) l = Ok r /\ Permutation r l.
Proof.
  induction 1 as [|x xs Hx Hxs [r [Hr Hp]]]; cbn [sortM].
  - eauto.
  - rewrite Hr. cbn [bind].
    destruct (insertM_permutes x r Hx) as [r' [Hr' Hp']].
    { eapply Permutation_Forall; [symmetry; exact Hp | exact Hxs]. }
    exists r'. split; [exact Hr'|]. rewrite Hp'. now constructor.
Qed.

Lemma not_nullish_all_defined (l : list value) :
  Forall (fun c => nullish c = false) l ->
  filter (fun v => negb (is_undefined v)) l = l /\ filter is_undefined l = [].
Proof.
  induction 1 as [|c l Hc _ [IH1 IH2]]; cbn [filter]; [split; reflexivity|].
  assert (Hu : is_undefined c = false).
  { destruct c as [[| | | |]| |]; try reflexivity. discriminate Hc. }
  rewrite Hu. cbn [negb]. rewrite IH1, IH2. split; reflexivity.
Qed.

Lemma insertM_in_front (x : value) (l : list value) :
  Compared.timed parseDate x -> Forall (Compared.timed parseDate) l ->
  Forall (Compared.notOlder parseDate x) l ->
  insertM (byCreatedDesc parseDate) x l = Ok (x :: l).
Proof.
  intros Hx Hl Hle. destruct l as [|y ys]; [reflexivity|].
  inversion Hl; subst. inversion Hle as [|? ? Hxy _]; subst.
  cbn [insertM]. rewrite (byCreatedDesc_timed parseDate x y) by assumption.
  cbn [bind]. unfold goes_after, Compared.notOlder in *.
  destruct (Z.ltb_spec 0 (Compared.timeOf parseDate y
                          - Compared.timeOf parseDate x));
    [lia | reflexivity].
Qed.

Lemma sortM_of_sorted (l : list value) :
  Forall (Compared.timed parseDate) l ->
  StronglySorted (Compared.notOlder parseDate) l ->
  sortM (byCreatedDesc parseDate) l = Ok l.
Proof.
  intros Hl Hs. induction Hs as [|x l Hs IH Hx]; [reflexivity|].
  inversion Hl; subst. cbn [sortM]. rewrite IH by assumption. cbn [bind].
  now apply insertM_in_front.
Qed.

(** Two comparators' arguments that have the same creation times compare
    alike. *)
Lemma byCreatedDesc_same_times (a b a' b' : value) :
  createdTime parseDate a' = createdTime parseDate a ->
  createdTime parseDate b' = createdTime parseDate b ->
  byCreatedDesc parseDate a' b' = byCreatedDesc parseDate a b.
Proof. intros Ha Hb. unfold byCreatedDesc. now rewrite Ha, Hb. Qed.

Section Related.
Variable R : value -> value -> Prop.
Hypothesis R_time :
  forall c c', R c c' -> createdTime parseDate c' = createdTime parseDate c.

Lemma insertM_related (x x' : value) (l l' : list value) :
  R x x' -> Forall2 R l l' ->
  forall r, insertM (byCreatedDesc parseDate) x l = Ok r ->
  exists r', insertM (byCreatedDesc parseDate) x' l' = Ok r' /\ Forall2 R r r'.
Proof.
  intros Hx Hl. induction Hl as [|y y' ys ys' Hy Hys IH]; intros r Hr;
    cbn [insertM] in *.
  - injection Hr as <-. eexists. split; [reflexivity|]. now repeat constructor.
  - rewrite (byCreatedDesc_same_times x y x' y' (R_time _ _ Hx) (R_time _ _ Hy)).
    destruct (byCreatedDesc parseDate x y) as [d|]; cbn [bind] in *;
      [|discriminate].
    destruct (goes_after d).
    + destruct (insertM (byCreatedDesc parseDate) x ys) as [r0|] eqn:Hr0;
        cbn [bind] in Hr; [|discriminate].
      injection Hr as <-. destruct (IH r0 eq_refl) as (r0' & -> & HR).
      cbn [bind]. eexists. split; [reflexivity|]. now constructor.
    + injection Hr as <-. eexists. split; [reflexivity|].
      now repeat constructor.
Qed.

Lemma sortM_related (l l' : list value) :
  Forall2 R l l' ->
  forall r, sortM (byCreatedDesc parseDate) l = Ok r ->
  exists r', sortM (byCreatedDesc parseDate) l' = Ok r' /\ Forall2 R r r'.
Proof.
  induction 1 as [|x x' xs xs' Hx Hxs IH]; intros r Hr; cbn [sortM] in *.
  - injection Hr as <-. eexists. split; [reflexivity | constructor].
  - destruct (sortM (byCreatedDesc parseDate) xs) as [r0|] eqn:Hr0;
      cbn [bind] in Hr; [|discriminate].
    destruct (IH r0 eq_refl) as (r0' & -> & HR). cbn [bind].
    exact (insertM_related x x' r0 r0' Hx HR r Hr).
Qed.
End Related.
End RecentMore.

(** X15. For any collection of records, with or without valid creation
    dates, the derivation returns: its result has min(6, n) entries and,
    completed by the entries it leaves out, is a rearrangement of the
    collection, so every row shown is a case of the collection and none is
    shown twice. *)
Theorem recentCases_is_a_selection (parseDate : string -> option Z)
  (cs : list value) :
  Forall (fun c => nullish c = false) cs ->
  exists recent rest,
    recentCases parseDate cs = Ok recent
    /\ length recent = Nat.min 6 (length cs)
    /\ Permutation (recent ++ rest) cs.
Proof.
  intros Hall.
  destruct (not_nullish_all_defined cs Hall) as [Hdef Hundef].
  destruct (sortM_permutes parseDate cs Hall) as (r & Hr & Hp).
  exists (firstn 6 r), (skipn 6 r).
  split.
  { unfold recentCases, arraySort. rewrite Hdef, Hundef, Hr. cbn [bind].
    now rewrite app_nil_r. }
  rewrite firstn_skipn, length_firstn, (Permutation_length Hp).
  split; [reflexivity | exact Hp].
Qed.

Lemma recentCases_is_a_selection_witness :
  exists recent rest,
    recentCases noDates
      [VObj [("_id", VStr "a")]; VObj [("createdAt", VStr "soon")]]
    = Ok recent
    /\ length recent = 2
    /\ Permutation (recent ++ rest)
         [VObj [("_id", VStr "a")]; VObj [("createdAt", VStr "soon")]].
Proof.
  apply (recentCases_is_a_selection noDates
           [VObj [("_id", VStr "a")]; VObj [("createdAt", VStr "soon")]]).
  repeat constructor.
Defined.

(** X16. The derivation is idempotent on collections whose records have
    valid creation times: applied to its own result it returns it
    unchanged. *)
Theorem recentCases_idempotent (parseDate : string -> option Z)
  (cs : list value) :
  Forall (fun c => exists t, createdTime parseDate c = Ok (Some t)) cs ->
  exists recent,
    recentCases parseDate cs = Ok recent
    /\ recentCases parseDate recent = Ok recent.
Proof.
  intros Hall.
  destruct (timed_all_defined parseDate cs Hall) as [Hdef Hundef].
  destruct (sortM_sorted parseDate cs Hall) as (r & Hr & Hp & Hs & _).
  assert (Hrt : Forall (Compared.timed parseDate) r).
  { eapply Permutation_Forall; [symmetry; exact Hp | exact Hall]. }
  exists (firstn 6 r). split.
  { unfold recentCases, arraySort. rewrite Hdef, Hundef, Hr. cbn [bind].
    now rewrite app_nil_r. }
  pose proof (Forall_firstn _ 6 r Hrt) as Hft.
  destruct (timed_all_defined parseDate _ Hft) as [Hdef' Hundef'].
  unfold recentCases, arraySort. rewrite Hdef', Hundef'.
  rewrite (sortM_of_sorted parseDate _ Hft (StronglySorted_firstn _ 6 r Hs)).
  cbn [bind]. rewrite app_nil_r, firstn_firstn. reflexivity.
Qed.

Lemma recentCases_idempotent_witness :
  exists recent,
    recentCases noDates sevenCases = Ok recent
    /\ recentCases noDates recent = Ok recent.
Proof.
  apply (recentCases_idempotent noDates sevenCases).
  repeat constructor; eexists; reflexivity.
Defined.

Lemma optimistic_keeps_time (parseDate : string -> option Z)
  (caseId : prim) (newStatus c c' : value) :
  truthy_prim caseId = true ->
  optimistic caseId newStatus c = Ok c' ->
  createdTime parseDate c' = createdTime parseDate c.
Proof.
  intros Ht Hopt. unfold optimistic in Hopt.
  destruct (getProp c "_id") as [id|] eqn:Hid; cbn [bind] in Hopt;
    [|discriminate].
  injection Hopt as <-.
  destruct (strictEq id caseId) eqn:Heq; [|reflexivity].
  destruct (matching_record_is_object caseId c id Ht Hid Heq) as [ps ->].
  unfold createdTime. cbn [getProp spread ownProps].
  now rewrite lookup_setProp_other by discriminate.
Qed.

(** X17. The optimistic rewrite does not move rows: the recent cases of
    the rewritten collection are the rewritten recent cases of the
    original collection, at the same places. *)
Theorem recentCases_commutes_with_optimistic_rewrite
  (parseDate : string -> option Z) (caseId : prim) (newStatus : value)
  (cs cs' recent : list value) :
  truthy_prim caseId = true ->
  mapM (optimistic caseId newStatus) cs = Ok cs' ->
  recentCases parseDate cs = Ok recent ->
  exists recent',
    recentCases parseDate cs' = Ok recent'
    /\ mapM (optimistic caseId newStatus) recent = Ok recent'.
Proof.
  intros Ht Hcs Hrecent.
  pose proof (mapM_Forall2 _ _ _ Hcs) as HR.
  assert (Hn : Forall (fun c => nullish c = false) cs).
  { clear -HR. induction HR as [|c c' l l' Hc _ IH]; constructor; [|exact IH].
    destruct c as [[| | | |]| |]; try reflexivity; discriminate Hc. }
  pose proof (mapM_optimistic_not_nullish _ _ _ _ Hcs) as Hn'.
  destruct (not_nullish_all_defined cs Hn) as [Hdef Hundef].
  destruct (not_nullish_all_defined cs' Hn') as [Hdef' Hundef'].
  unfold recentCases, arraySort in *.
  rewrite Hdef, Hundef in Hrecent. rewrite Hdef', Hundef'.
  destruct (sortM (byCreatedDesc parseDate) cs) as [r|] eqn:Hr;
    cbn [bind] in Hrecent; [|discriminate].
  injection Hrecent as <-.
  destruct (sortM_related parseDate
              (fun c c' => optimistic caseId newStatus c = Ok c')
              (fun c c' => optimistic_keeps_time parseDate _ _ c c' Ht)
              cs cs' HR r Hr) as (r' & Hr' & HRr).
  rewrite Hr'. cbn [bind]. eexists. split; [reflexivity|].
  rewrite !app_nil_r. apply Forall2_mapM.
  exact (Forall2_firstn _ 6 r r' HRr).
Qed.

Lemma recentCases_commutes_with_optimistic_rewrite_witness :
  exists recent',
    recentCases noDates
      [VObj [("_id", VStr "c1"); ("status", VStr "Closed");
             ("title", VStr "Knee surgery"); ("createdAt", VNum 1000)];
       case2]
    = Ok recent'
    /\ mapM (optimistic (PStr "c1") (VStr "Closed")) [case2; case1]
       = Ok recent'.
Proof.
  apply (recentCases_commutes_with_optimistic_rewrite noDates
           (PStr "c1") (VStr "Closed") sampleCases); reflexivity.
Defined.

(** *** KPI cards and the status tab *)

(** X18. Clicking with a string that equals a status of the enumeration up
    to letter case puts it in the URL, from which the tab derived is that
    status; clicking with "All" removes the parameter and the tab is
    "All".  In particular each of "All" and the five statuses leads to
    itself. *)
Theorem onCardClick_then_statusTab (status s : string) :
  In s STATUSES ->
  toLowerCase status = toLowerCase s ->
  statusTab (onCardClick status) = s
  /\ statusTab (onCardClick s) = s
  /\ statusTab (onCardClick "All") = "All".
Proof.
  intros Hin Heq.
  assert (Hgo : forall p, toLowerCase p = toLowerCase s ->
                          statusTab (onCardClick p) = s).
  { intros p Hp. unfold onCardClick.
    assert (Hall : String.eqb p "All" = false).
    { apply String.eqb_neq. intros ->. simpl in Hin.
      repeat (destruct Hin as [<- | Hin]; [discriminate Hp|]). exact Hin. }
    rewrite Hall. unfold statusTab.
    pose proof (toLowerCase_nonempty p s Hin Hp) as Hne.
    apply String.eqb_neq in Hne. rewrite Hne.
    simpl in Hin.
    repeat (destruct Hin as [<- | Hin]; [rewrite Hp; reflexivity|]).
    contradiction. }
  split; [now apply Hgo|]. split; [now apply Hgo | reflexivity].
Qed.

Lemma onCardClick_then_statusTab_witness :
  statusTab (onCardClick "follow up") = "Follow Up"
  /\ statusTab (onCardClick "Follow Up") = "Follow Up"
  /\ statusTab (onCardClick "All") = "All".
Proof.
  apply (onCardClick_then_statusTab "follow up" "Follow Up");
    [simpl; tauto | reflexivity].
Defined.

(** X19. The cards are clicked with their label, not with their status
    query.  Whatever the snapshot, the cards are the seven labelled
    pending, inProgress, followUps, assigned, closed, totalCases and
    failedCases; clicking the pending, assigned, closed and totalCases
    cards selects the tab named by their status query, whereas clicking
    the inProgress, followUps and failedCases cards selects "All", which
    is not their status query; and the failedCases card shows 0. *)
Theorem cards_select_tab_by_label (snapshot : Count) :
  map cardLabel (cardConfigs snapshot)
  = ["pending"; "inProgress"; "followUps"; "assigned"; "closed";
     "totalCases"; "failedCases"]
  /\ Forall
       (fun card =>
          (In (cardLabel card)
              ["pending"; "assigned"; "closed"; "totalCases"] ->
           statusTab (clickCard card) = cardStatusQuery card)
          /\ (In (cardLabel card)
                 ["inProgress"; "followUps"; "failedCases"] ->
              statusTab (clickCard card) = "All"
              /\ cardStatusQuery card <> "All")
          /\ (cardLabel card = "failedCases" -> shownValue card = 0))
       (cardConfigs snapshot).
Proof.
  split; [reflexivity|].
  unfold cardConfigs.
  repeat apply Forall_cons; try apply Forall_nil;
    (split; [|split]);
    cbn [cardLabel cardStatusQuery cardValue clickCard shownValue];
    intros H;
    first [ split; [reflexivity | discriminate]
          | reflexivity
          | exfalso; cbn [In] in H; intuition discriminate ].
Qed.

(** *** Composing rewrites *)

Lemma setProp_setProp (k : string) (v1 v2 : value) (ps : props) :
  setProp k v2 (setProp k v1 ps) = setProp k v2 ps.
Proof.
  induction ps as [|[k0 v0] rest IH]; simpl.
  - now rewrite String.eqb_refl.
  - destruct (String.eqb k0 k) eqn:E; simpl; rewrite E;
      [reflexivity | now rewrite IH].
Qed.

Lemma optimistic_twice (caseId : prim) (n1 n2 c c1 : value) :
  truthy_prim caseId = true ->
  optimistic caseId n1 c = Ok c1 ->
  optimistic caseId n2 c1 = optimistic caseId n2 c.
Proof.
  intros Ht H1. unfold optimistic in H1.
  destruct (getProp c "_id") as [id|] eqn:Hid; cbn [bind] in H1;
    [|discriminate].
  injection H1 as <-.
  destruct (strictEq id caseId) eqn:Heq; [|reflexivity].
  destruct (matching_record_is_object caseId c id Ht Hid Heq) as [ps ->].
  unfold optimistic. cbn [getProp spread ownProps] in *.
  rewrite lookup_setProp_other by discriminate.
  destruct (lookup "_id" ps) as [x|]; injection Hid as ->; cbn [bind];
    rewrite Heq; now rewrite setProp_setProp.
Qed.

Lemma mapM_after {A : Type} (f g : A -> result A) (l l1 : list A) :
  (forall x x1, f x = Ok x1 -> g x1 = g x) ->
  mapM f l = Ok l1 -> mapM g l1 = mapM g l.
Proof.
  intros Hfg H. apply mapM_Forall2 in H.
  induction H as [|x x1 l l1 Hx _ IH]; [reflexivity|].
  cbn [mapM]. now rewrite (Hfg x x1 Hx), IH.
Qed.

(** X21. The last write wins: rewriting a collection for an identifier
    with one status and then, for the same identifier, with another gives
    what rewriting with the second status alone gives. *)
Theorem optimistic_rewrite_last_write_wins
  (caseId : prim) (n1 n2 : value) (cs cs1 : list value) :
  truthy_prim caseId = true ->
  mapM (optimistic caseId n1) cs = Ok cs1 ->
  mapM (optimistic caseId n2) cs1 = mapM (optimistic caseId n2) cs.
Proof.
  intros Ht H1. apply (mapM_after (optimistic caseId n1)); [|exact H1].
  intros x x1 Hx. now apply (optimistic_twice caseId n1 n2 x x1).
Qed.

Lemma optimistic_rewrite_last_write_wins_witness :
  exists cs1,
    mapM (optimistic (PStr "c1") (VStr "Assigned")) sampleCases = Ok cs1
    /\ mapM (optimistic (PStr "c1") (VStr "Closed")) cs1
       = mapM (optimistic (PStr "c1") (VStr "Closed")) sampleCases.
Proof.
  eexists. split; [reflexivity|].
  apply (optimistic_rewrite_last_write_wins (PStr "c1") (VStr "Assigned"));
    reflexivity.
Defined.

(** X22. An update for an identifier that no record of the collection has
    rewrites nothing, and the PUT is sent all the same, with the marker
    set. *)
Theorem handleUpdateStatus_unknown_identifier
  (caseId : prim) (newStatus : value) (s : State) :
  truthy_prim caseId = true ->
  Forall (fun c => nullish c = false
                   /\ strictEq (Spec.under c "_id") caseId = false)
         (cases s) ->
  exists k,
    handleUpdateStatus caseId newStatus s
    = Await (mkState (cases s) (selectedCase s) caseId (notices s))
            (PutStatus caseId newStatus) k.
Proof.
  intros Ht Hall.
  assert (Hcs : mapM (optimistic caseId newStatus) (cases s) = Ok (cases s)).
  { induction Hall as [|c l [Hn Hne] _ IH]; [reflexivity|].
    cbn [mapM]. unfold optimistic at 1.
    rewrite (getProp_under c "_id" Hn). cbn [bind]. rewrite Hne.
    cbn [bind]. now rewrite IH. }
  rewrite (handleUpdateStatus_issued _ _ _ (cases s) Ht Hcs). eauto.
Qed.

Lemma handleUpdateStatus_unknown_identifier_witness :
  exists k,
    handleUpdateStatus (PStr "c7") (VStr "Closed") sampleState
    = Await (mkState sampleCases null (PStr "c7") [])
            (PutStatus (PStr "c7") (VStr "Closed")) k.
Proof.
  apply (handleUpdateStatus_unknown_identifier
           (PStr "c7") (VStr "Closed") sampleState);
    [reflexivity | repeat constructor].
Defined.

(** *** Statistics after a rewrite *)

Lemma unshadowed_balanced (cs : list value) :
  Forall (fun c => exists key,
            status_key c = Ok key /\ Tally.shadowed key = false) cs ->
  exists c,
    stats cs = Ok c /\ total c = length cs /\ bucket_sum c = length cs.
Proof.
  intros Hall.
  assert (Hcountable : Forall Tally.countable cs).
  { eapply Forall_impl; [|exact Hall]. intros c (key & Hk & _). now exists key. }
  assert (Hkeys : Forall (fun x => forall key, status_key x = Ok key ->
                    key <> "total" /\ key <> "constructor"
                    /\ key <> "__proto__") cs).
  { eapply Forall_impl; [|exact Hall]. intros c (key & Hk & Hs) key' Hk'.
    assert (key' = key) by congruence. subst key'.
    unfold Tally.shadowed in Hs.
    apply orb_false_iff in Hs. destruct Hs as [Hs Hp].
    apply orb_false_iff in Hs. destruct Hs as [Ht Hc].
    apply String.eqb_neq in Ht, Hc, Hp. auto. }
  destruct (stats_tally_from cs count0 Hcountable) as (c & Hrun & Ht & _).
  exists c. split; [exact Hrun|].
  assert (Hlen : total c = length cs).
  { rewrite Ht. rewrite withKey_none; [simpl; lia|].
    eapply Forall_impl; [|exact Hkeys]. intros x Hx key Hk.
    apply String.eqb_neq. apply (Hx key Hk). }
  split; [exact Hlen|].
  rewrite <- Hlen. apply (stats_balanced cs c Hkeys Hrun).
Qed.

Lemma status_key_of_status (ns : string) :
  In ns STATUSES ->
  forall ps,
    exists key,
      status_key (VObj (setProp "status" (VStr ns) ps)) = Ok key
      /\ Tally.shadowed key = false.
Proof.
  intros Hin ps. unfold status_key. cbn [getProp].
  rewrite lookup_setProp_same. cbn [bind].
  simpl in Hin.
  repeat (destruct Hin as [<- | Hin];
          [eexists; split; reflexivity|]).
  contradiction.
Qed.

(** X23. Choosing a status of the selector for a case changes neither the
    total nor the sum of the status counters: when no record normalizes to
    [total], [constructor] or [__proto__], the snapshot of the rewritten
    collection has the same total and the same sum as the snapshot of the
    original, both being the number of records. *)
Theorem stats_total_survives_optimistic_rewrite
  (caseId : prim) (ns : string) (cs : list value) :
  truthy_prim caseId = true ->
  In ns STATUSES ->
  Forall (fun c => exists key,
            status_key c = Ok key /\ Tally.shadowed key = false) cs ->
  exists cs' c c',
    mapM (optimistic caseId (VStr ns)) cs = Ok cs'
    /\ stats cs = Ok c
    /\ stats cs' = Ok c'
    /\ total c' = total c
    /\ bucket_sum c' = bucket_sum c
    /\ total c = length cs.
Proof.
  intros Ht Hin Hall.
  assert (Hn : Forall (fun c => nullish c = false) cs).
  { eapply Forall_impl; [|exact Hall]. intros c (key & Hk & _).
    destruct c as [[| | | |]| |]; try reflexivity; discriminate Hk. }
  destruct (mapM_optimistic_total caseId (VStr ns) cs Hn) as [cs' Hcs'].
  assert (Hall' : Forall (fun c => exists key,
                     status_key c = Ok key /\ Tally.shadowed key = false) cs').
  { pose proof (mapM_Forall2 _ _ _ Hcs') as HR. clear Hcs' Hn.
    induction HR as [|x x' l l' Hx _ IH]; [constructor|].
    inversion Hall as [|? ? Hkx Hl]; subst.
    constructor; [|now apply IH].
    unfold optimistic in Hx.
    destruct (getProp x "_id") as [id|] eqn:Hid; cbn [bind] in Hx;
      [|discriminate].
    injection Hx as <-.
    destruct (strictEq id caseId) eqn:Heq; [|exact Hkx].
    now apply status_key_of_status. }
  destruct (unshadowed_balanced cs Hall) as (c & Hc & Htot & Hsum).
  destruct (unshadowed_balanced cs' Hall') as (c' & Hc' & Htot' & Hsum').
  exists cs', c, c'.
  pose proof (Forall2_length_eq _ _ _ (mapM_Forall2 _ _ _ Hcs')) as Hlen.
  repeat split; try assumption; congruence.
Qed.

Lemma stats_total_survives_optimistic_rewrite_witness :
  exists cs' c c',
    mapM (optimistic (PStr "c1") (VStr "Closed")) sampleCases = Ok cs'
    /\ stats sampleCases = Ok c
    /\ stats cs' = Ok c'
    /\ total c' = total c
    /\ bucket_sum c' = bucket_sum c
    /\ total c = 2.
Proof.
  apply (stats_total_survives_optimistic_rewrite
           (PStr "c1") "Closed" sampleCases);
    [reflexivity | simpl; tauto |].
  repeat constructor; eexists; split; reflexivity.
Defined.

(** *** Disabled selectors *)

Lemma optimistic_keeps_id (caseId : prim) (newStatus c c' : value) :
  truthy_prim caseId = true ->
  optimistic caseId newStatus c = Ok c' ->
  getProp c' "_id" = getProp c "_id".
Proof.
  intros Ht Hopt. unfold optimistic in Hopt.
  destruct (getProp c "_id") as [id|] eqn:Hid; cbn [bind] in Hopt;
    [|discriminate].
  injection Hopt as <-.
  destruct (strictEq id caseId) eqn:Heq; [|exact Hid].
  destruct (matching_record_is_object caseId c id Ht Hid Heq) as [ps ->].
  cbn [getProp spread ownProps] in *.
  now rewrite lookup_setProp_other by discriminate.
Qed.

(** X24. While the PUT of an update is pending, the rows whose selector is
    disabled are exactly the rows the optimistic rewrite has changed: a
    disabled row shows the new status, and an enabled row is the record as
    it was.  Once the update has finished, succeeded or failed, a row can
    only be disabled if its [_id] is [null]. *)
Theorem rows_disabled_while_update_pending
  (caseId : prim) (newStatus : value) (s : State) :
  truthy_prim caseId = true ->
  Forall (fun c => nullish c = false) (cases s) ->
  exists s1 k,
    handleUpdateStatus caseId newStatus s
    = Await s1 (PutStatus caseId newStatus) k
    /\ Forall2
         (fun c c' =>
            exists d,
              rowDisabled s1 c' = Ok d
              /\ (d = true -> getProp c' "status" = Ok newStatus)
              /\ (d = false -> c' = c))
         (cases s) (cases s1)
    /\ forall settled s2,
         run (handleUpdateStatus caseId newStatus s) settled = Finished s2 ->
         forall c, rowDisabled s2 c = Ok true -> getProp c "_id" = Ok null.
Proof.
  intros Ht Hall.
  destruct (mapM_optimistic_total caseId newStatus (cases s) Hall)
    as [cs Hcs].
  pose proof (mapM_optimistic_not_nullish _ _ _ _ Hcs) as Hcsn.
  rewrite (handleUpdateStatus_issued _ _ _ cs Ht Hcs).
  eexists _, _. split; [reflexivity|]. split.
  - cbn [cases]. eapply Forall2_impl; [|apply mapM_Forall2, Hcs].
    intros c c' Hopt. unfold rowDisabled. cbn [updatingCaseId].
    rewrite (optimistic_keeps_id _ _ _ _ Ht Hopt).
    destruct (optimistic_patched _ _ _ _ Ht Hopt) as (id & Hid & Hsame & Hnew).
    rewrite Hid. cbn [bind]. exists (strictEq id caseId).
    split; [reflexivity|]. split.
    + intros Heq. destruct (Hnew Heq) as (ps & ps' & -> & -> & Hst & _).
      cbn [getProp]. now rewrite Hst.
    + exact Hsame.
  - assert (Hnull : forall s2 c,
              updatingCaseId s2 = PNull ->
              rowDisabled s2 c = Ok true -> getProp c "_id" = Ok null).
    { intros s2 c Hm. unfold rowDisabled. rewrite Hm.
      destruct (getProp c "_id") as [id|]; cbn [bind]; [|discriminate].
      intros [= Heq]. destruct id as [[| | | |]| |]; try discriminate Heq.
      reflexivity. }
    intros settled s2 Hrun c. apply (Hnull s2 c).
    destruct settled as [|[data|] rest]; cbn [run] in Hrun; [discriminate| |].
    + destruct (reconcile_done (selectedCase s) data
                  (mkState cs (selectedCase s) caseId (notices s)) Hcsn)
        as [s' Hs'].
      rewrite Hs' in Hrun. cbn in Hrun. injection Hrun as <-. reflexivity.
    + destruct rest as [|[data|] rest]; cbn in Hrun;
        [discriminate | injection Hrun as <- ..]; reflexivity.
Qed.

Lemma rows_disabled_while_update_pending_witness :
  exists s1 k,
    handleUpdateStatus (PStr "c1") (VStr "Closed") sampleState
    = Await s1 (PutStatus (PStr "c1") (VStr "Closed")) k
    /\ Forall2
         (fun c c' =>
            exists d,
              rowDisabled s1 c' = Ok d
              /\ (d = true -> getProp c' "status" = Ok (VStr "Closed"))
              /\ (d = false -> c' = c))
         sampleCases (cases s1).
Proof.
  destruct (rows_disabled_while_update_pending
              (PStr "c1") (VStr "Closed") sampleState eq_refl)
    as (s1 & k & H1 & H2 & _); [repeat constructor|].
  exists s1, k. split; [exact H1 | exact H2].
Defined.

(** *** The "Open Page" target *)

Lemma encodeUnit_safe (c : ascii) :
  Forall (fun x => ~ In x separators) (list_ascii_of_string (encodeUnit c)).
Proof.
  destruct c as [[] [] [] [] [] [] [] []]; vm_compute;
    repeat constructor; intuition discriminate.
Qed.

Lemma list_ascii_of_string_app (a b : string) :
  list_ascii_of_string (a ++ b)
  = (list_ascii_of_string a ++ list_ascii_of_string b)%list.
Proof. induction a as [|c a IH]; simpl; [reflexivity | now rewrite IH]. Qed.

Lemma encodeURIComponent_safe (s : string) :
  Forall (fun x => ~ In x separators)
         (list_ascii_of_string (encodeURIComponent s)).
Proof.
  induction s as [|c s IH]; cbn [encodeURIComponent]; [constructor|].
  rewrite list_ascii_of_string_app. apply Forall_app.
  split; [apply encodeUnit_safe | exact IH].
Qed.

(** X25. The page the "Open Page" button navigates to is the fixed path
    followed by the encoded reference, in which none of the characters
    that structure a URL ([& # = ? / +], space, angle brackets)
    occurs, whatever the reference holds; when the button is disabled
    (falsy reference) the encoded reference is empty. *)
Theorem openPageTarget_is_one_parameter (item : value) :
  nullish item = false ->
  exists e,
    openPageTarget item = Ok ("/facilitator/case-by-ref?ref=" ++ e)
    /\ Forall (fun x => ~ In x separators) (list_ascii_of_string e)
    /\ (openPageDisabled item = Ok true -> e = "").
Proof.
  intros Hn. unfold openPageTarget, openPageDisabled.
  rewrite (getProp_under item "referenceId" Hn). cbn [bind].
  eexists. split; [reflexivity|]. split; [apply encodeURIComponent_safe|].
  intros [= Hf]. apply negb_true_iff in Hf. unfold or_else. now rewrite Hf.
Qed.

Lemma openPageTarget_is_one_parameter_witness :
  exists e,
    openPageTarget (VObj [("referenceId", VStr "A&B=1/2 #x")])
    = Ok ("/facilitator/case-by-ref?ref=" ++ e)
    /\ Forall (fun x => ~ In x separators) (list_ascii_of_string e).
Proof.
  destruct (openPageTarget_is_one_parameter
              (VObj [("referenceId", VStr "A&B=1/2 #x")]) eq_refl)
    as (e & He & Hs & _).
  exists e. split; [exact He | exact Hs].
Defined.

Example openPageTarget_sample :
  openPageTarget (VObj [("referenceId", VStr "A&B=1/2 #x")])
  = Ok "/facilitator/case-by-ref?ref=A%26B%3D1%2F2%20%23x".
Proof. reflexivity. Qed.

End Extra.
